(** * omni_httpd: response builder, configuration trigger, handler validator

    A shallow embedding of [extensions/omni_httpd/omni_httpd.c]:
    [reload_configuration], [add_header], [http_response] and
    [handlers_query_validity_trigger], together with the fragment of the
    PostgreSQL runtime these functions call (arrays of [http_header],
    overflow-checked addition, [strncasecmp], [Async_Notify], jsonb output). *)

From Stdlib Require Import ZArith NArith Nnat List String Ascii Bool Lia.
Import ListNotations.

Set Warnings "-register-all".

Local Open Scope string_scope.
Local Open Scope Z_scope.

(** ** Control flow of a PostgreSQL function

    A C function of the extension either returns, leaves through
    [ereport(ERROR, ...)], or steps outside what C defines (an object read
    past its end, a datum read at the wrong type). *)

Inductive outcome (A : Type) : Type :=
| Return (a : A)
| Raise (msg : string)
| Undefined.

Arguments Return {A} a.
Arguments Raise {A} msg.
Arguments Undefined {A}.

Definition bind {A B : Type} (m : outcome A) (k : A -> outcome B) : outcome B :=
  match m with
  | Return a => k a
  | Raise msg => Raise msg
  | Undefined => Undefined
  end.

Declare Scope outcome_scope.
Delimit Scope outcome_scope with outcome.
Notation "x <- m ;; k" := (bind m (fun x => k))
  (at level 61, m at next level, right associativity) : outcome_scope.
Local Open Scope outcome_scope.

(** ** Signed 32-bit arithmetic ([common/int.h]) *)

Definition PG_INT32_MIN : Z := - 2147483648.
Definition PG_INT32_MAX : Z := 2147483647.

Definition in_int32 (z : Z) : Prop := PG_INT32_MIN <= z <= PG_INT32_MAX.

(** Two's-complement wrap-around of a mathematical integer to 32 bits. *)
Definition wrap_s32 (z : Z) : Z := (z + 2147483648) mod 4294967296 - 2147483648.

(** [pg_add_s32_overflow(a, b, &result)]: the returned flag says whether
    [a + b] left the int32 range; [*result] holds the wrapped sum. *)
Definition pg_add_s32_overflow (a b : Z) : bool * Z :=
  let sum := a + b in
  ((sum <? PG_INT32_MIN) || (PG_INT32_MAX <? sum), wrap_s32 sum).

(** ** C strings and [strncasecmp] *)

Definition NUL : ascii := "000"%char.

(** [tolower] in the C locale. *)
Definition tolower (c : ascii) : ascii :=
  let n := N_of_ascii c in
  if ((65 <=? n) && (n <=? 90))%N then ascii_of_N (n + 32) else c.

(** The byte a [char *] points at; past the last character of a literal
    sits its terminating NUL. *)
Definition peek (s : string) : ascii :=
  match s with
  | EmptyString => NUL
  | String c _ => c
  end.

Definition advance (s : string) : string :=
  match s with
  | EmptyString => EmptyString
  | String _ s' => s'
  end.

(** [strncasecmp(s1, s2, n)]: compare at most [n] bytes ignoring case,
    stopping at the first difference or at a NUL. *)
Fixpoint strncasecmp (s1 s2 : string) (n : nat) : Z :=
  match n with
  | O => 0
  | S n' =>
      let c1 := tolower (peek s1) in
      let c2 := tolower (peek s2) in
      if negb (Ascii.eqb c1 c2) then
        Z.of_N (N_of_ascii c1) - Z.of_N (N_of_ascii c2)
      else if Ascii.eqb c1 NUL then 0
      else strncasecmp (advance s1) (advance s2) n'
  end.

(** ** Data: datums, header tuples, arrays *)

(** JSON trees as jsonb holds them ([JsonbValue]): numerics are decimal,
    [mantissa * 10^(-dscale)], and objects keep their pairs in order. *)
Inductive JsonbValue : Type :=
| jbvNull
| jbvBool (b : bool)
| jbvNumeric (mantissa : Z) (dscale : nat)
| jbvString (s : string)
| jbvArray (elems : list JsonbValue)
| jbvObject (pairs : list (string * JsonbValue)).

(** A [Datum] as the functions below meet it: a pass-by-value word, a
    varlena of raw bytes (text, varchar, bytea, json) or a jsonb container. *)
Inductive Datum : Type :=
| ByVal (z : Z)
| Varlena (bytes : string)
| JsonbP (jb : JsonbValue).

(** The composite type [http_header (name text, value text, append bool)];
    each attribute of a composite value may be NULL. *)
Record http_header : Type := mk_http_header {
  name : option string;
  value : option string;
  append : option bool
}.

(** A PostgreSQL array of [http_header]: [dims] and [lbound] have one entry
    per dimension (none for the empty array), [elems] lists the elements in
    storage order, [None] being a NULL element. *)
Record ArrayType : Type := mk_ArrayType {
  dims : list Z;
  lbound : list Z;
  elems : list (option http_header)
}.

Definition ARR_NDIM (a : ArrayType) : nat := List.length (dims a).

(** The composite type [http_response (status, headers, body)] as
    [heap_form_tuple] builds it from [values] and the null flags. *)
Record http_response_tuple : Type := mk_http_response {
  status : Z;
  headers : option ArrayType;
  body : option Datum
}.

(** Type oids of [catalog/pg_type_d.h]. *)
Definition Oid : Type := Z.
Definition BYTEAOID : Oid := 17.
Definition CHAROID : Oid := 18.
Definition TEXTOID : Oid := 25.
Definition JSONOID : Oid := 114.
Definition VARCHAROID : Oid := 1043.
Definition JSONBOID : Oid := 3802.

(** ** Array primitives ([utils/adt/arrayfuncs.c]) *)

Definition MaxArraySize : Z := 134217727.

(** [ArrayGetNItems] and [ArrayCheckBounds] for one dimension. *)
Definition check_array_limits (dim lb : Z) : outcome unit :=
  if MaxArraySize <? dim then Raise "array size exceeds the maximum allowed"
  else if fst (pg_add_s32_overflow dim lb) then Raise "array lower bound is too large"
  else Return tt.

(** Overwrite position [n] of a list. *)
Fixpoint list_set {A : Type} (l : list A) (n : nat) (x : A) : list A :=
  match l, n with
  | [], _ => []
  | _ :: t, O => x :: t
  | h :: t, S n' => h :: list_set t n' x
  end.

(** [array_set_element] with one subscript and a non-null value: an empty
    array becomes a one-element array at [indx]; a one-dimensional array is
    overwritten in place or extended (padding with NULLs) to reach [indx];
    any other dimensionality is an error. *)
Definition array_set_element (a : ArrayType) (indx : Z) (v : http_header)
  : outcome ArrayType :=
  match dims a, lbound a with
  | [], _ =>
      _ <- check_array_limits 1 indx ;;
      Return (mk_ArrayType [1] [indx] [Some v])
  | [dim], [lb] =>
      if indx <? lb then
        let addedbefore := lb - indx in
        _ <- check_array_limits (dim + addedbefore) indx ;;
        Return (mk_ArrayType [dim + addedbefore] [indx]
                  (Some v :: repeat None (Z.to_nat (addedbefore - 1)) ++ elems a))
      else if dim + lb <=? indx then
        let addedafter := indx - (dim + lb) + 1 in
        _ <- check_array_limits (dim + addedafter) lb ;;
        Return (mk_ArrayType [dim + addedafter] [lb]
                  (elems a ++ repeat None (Z.to_nat (addedafter - 1)) ++ [Some v]))
      else
        Return (mk_ArrayType [dim] [lb]
                  (list_set (elems a) (Z.to_nat (indx - lb)) (Some v)))
  | _, _ => Raise "wrong number of array subscripts"
  end.

(** [construct_md_array] for one dimension. *)
Definition construct_md_array (values : list (option http_header)) (dim lb : Z)
  : ArrayType :=
  mk_ArrayType [dim] [lb] values.

(** ** [add_header] *)

Definition heap_form_header (nm val : string) (app : bool) : http_header :=
  mk_http_header (Some nm) (Some val) (Some app).

(** [lb[0]] and [dimv[0]] of the expanded array: for an array of no
    dimensions both pointers sit at the end of the object and the read is
    not defined. *)
Definition first_bound (l : list Z) : outcome Z :=
  match l with
  | [] => Undefined
  | x :: _ => Return x
  end.

(** The subscript [add_header] writes at: [lb[0] + dimv[0]], guarded by
    [pg_add_s32_overflow]. *)
Definition add_header_indx (eah : ArrayType) : outcome Z :=
  lb0 <- first_bound (lbound eah) ;;
  dimv0 <- first_bound (dims eah) ;;
  let '(overflow, indx) := pg_add_s32_overflow lb0 dimv0 in
  if overflow then Raise "integer out of range" else Return indx.

(** [headers == 0] is [None]. *)
Definition add_header (hdrs : option ArrayType) (nm val : string) (app : bool)
  : outcome ArrayType :=
  let header := heap_form_header nm val app in
  match hdrs with
  | None => Return (construct_md_array [Some header] 1 1)
  | Some eah =>
      indx <- add_header_indx eah ;;
      array_set_element eah indx header
  end.

(** ** jsonb output ([utils/adt/jsonb.c], [json.c], [numeric.c]) *)

(** The double quote and the backslash, by code. *)
Definition dquote : ascii := "034"%char.
Definition backslash : ascii := "092"%char.

Definition digit_char (d : N) : ascii := ascii_of_N (48 + d).

Definition hex_char (d : N) : ascii :=
  if (d <? 10)%N then ascii_of_N (48 + d) else ascii_of_N (87 + d).

(** The [d] low decimal digits of [f], most significant first. *)
Fixpoint fixed_digits (d : nat) (f : N) : string :=
  match d with
  | O => EmptyString
  | S d' => String (digit_char ((f / 10 ^ N.of_nat d') mod 10)) (fixed_digits d' f)
  end.

(** Drop leading zeros, keeping the last digit. *)
Fixpoint strip_zeros (s : string) : string :=
  match s with
  | String c (String _ _ as s') => if Ascii.eqb c "0"%char then strip_zeros s' else s
  | _ => s
  end.

(** Decimal digits of a natural number, no leading zero. *)
Definition nat_digits (n : N) : string :=
  strip_zeros (fixed_digits (S (N.to_nat (N.size n))) n).

(** [numeric_out] of [mantissa * 10^(-dscale)]: sign, integer digits and
    exactly [dscale] fractional digits. *)
Definition numeric_out (mantissa : Z) (dscale : nat) : string :=
  let m := Z.abs_N mantissa in
  let p := (10 ^ N.of_nat dscale)%N in
  let sign := if mantissa <? 0 then "-" else "" in
  let fraction :=
    match dscale with
    | O => ""
    | S _ => String "."%char (fixed_digits dscale (m mod p))
    end in
  (sign ++ nat_digits (m / p) ++ fraction)%string.

(** [escape_json] for one character. *)
Definition escape_json_char (c : ascii) : string :=
  let n := N_of_ascii c in
  if (n =? 8)%N then String backslash "b"
  else if (n =? 12)%N then String backslash "f"
  else if (n =? 10)%N then String backslash "n"
  else if (n =? 13)%N then String backslash "r"
  else if (n =? 9)%N then String backslash "t"
  else if (n =? 34)%N then String backslash (String dquote "")
  else if (n =? 92)%N then String backslash (String backslash "")
  else if (n <? 32)%N then
    String backslash
      (String "u"%char (String "0"%char (String "0"%char
        (String (hex_char (n / 16)) (String (hex_char (n mod 16)) "")))))
  else String c "".

Fixpoint escape_json_chars (s : string) : string :=
  match s with
  | EmptyString => EmptyString
  | String c s' => (escape_json_char c ++ escape_json_chars s')%string
  end.

(** [escape_json]: the string between double quotes, escaped. *)
Definition escape_json (s : string) : string :=
  String dquote (escape_json_chars s ++ String dquote "")%string.

(** Elements separated by a comma and a space. *)
Fixpoint join_comma (l : list string) : string :=
  match l with
  | [] => EmptyString
  | [x] => x
  | x :: rest => (x ++ ", " ++ join_comma rest)%string
  end.

(** [JsonbToCString]: the text form jsonb values are output in. *)
Fixpoint JsonbToCString (v : JsonbValue) : string :=
  match v with
  | jbvNull => "null"
  | jbvBool true => "true"
  | jbvBool false => "false"
  | jbvNumeric m d => numeric_out m d
  | jbvString s => escape_json s
  | jbvArray l => ("[" ++ join_comma (map JsonbToCString l) ++ "]")%string
  | jbvObject ps =>
      ("{" ++ join_comma
                (map (fun kv => escape_json (fst kv) ++ ": " ++ JsonbToCString (snd kv)) ps)
           ++ "}")%string
  end.

(** [PG_GETARG_JSONB_P]: the argument read as a jsonb container. *)
Definition DatumGetJsonbP (d : Datum) : outcome JsonbValue :=
  match d with
  | JsonbP jb => Return jb
  | _ => Undefined
  end.

Definition cstring_to_text (s : string) : Datum := Varlena s.

(** ** [http_response] *)

(** The scan of the headers array for an explicit content type: NULL
    elements and NULL names are skipped, the loop leaves at the first name
    [strncasecmp] reports equal over the name's own length. *)
Fixpoint scan_content_type (items : list (option http_header)) : bool :=
  match items with
  | [] => false
  | None :: rest => scan_content_type rest
  | Some tuple :: rest =>
      match name tuple with
      | None => scan_content_type rest
      | Some name_str =>
          if strncasecmp name_str "content-type" (String.length name_str) =? 0
          then true
          else scan_content_type rest
      end
  end.

Definition has_content_type (hdrs : option ArrayType) : bool :=
  match hdrs with
  | None => false
  | Some a => scan_content_type (elems a)
  end.

(** [http_response(status, headers, body)]; [body_element_type] is what
    [get_fn_expr_argtype(fcinfo->flinfo, 2)] returns.  A NULL argument is
    [None].  The jsonb arm replaces the body and then runs on into the json
    arm; the error of the [default] arm is kept as its format string. *)
Definition http_response (arg_status : option Z) (arg_headers : option ArrayType)
    (body_element_type : Oid) (arg_body : option Datum)
  : outcome http_response_tuple :=
  let status := match arg_status with None => 200 | Some s => s end in
  let headers := arg_headers in
  match arg_body with
  | None => Return (mk_http_response status headers None)
  | Some body =>
      let has_ct := has_content_type headers in
      let infer (val : string) : outcome (option ArrayType) :=
        if has_ct then Return headers
        else h <- add_header headers "content-type" val false ;; Return (Some h) in
      if (body_element_type =? TEXTOID) || (body_element_type =? VARCHAROID)
         || (body_element_type =? CHAROID) then
        h <- infer "text/plain; charset=utf-8" ;;
        Return (mk_http_response status h (Some body))
      else if body_element_type =? BYTEAOID then
        h <- infer "application/octet-stream" ;;
        Return (mk_http_response status h (Some body))
      else if body_element_type =? JSONBOID then
        jb <- DatumGetJsonbP body ;;
        let out := JsonbToCString jb in
        h <- infer "text/json" ;;
        Return (mk_http_response status h (Some (cstring_to_text out)))
      else if body_element_type =? JSONOID then
        h <- infer "text/json" ;;
        Return (mk_http_response status h (Some body))
      else
        Raise "Can't (yet) cast %s to bytea"
  end.

(** ** Triggers: calling context and tuples *)

(** A heap tuple as its attribute values, in column order; [None] is NULL. *)
Definition HeapTuple : Type := list (option Datum).

Record TriggerData : Type := mk_TriggerData {
  tg_trigtuple : HeapTuple;
  tg_newtuple : option HeapTuple
}.

(** [fcinfo->context]: [CALLED_AS_TRIGGER] holds exactly for [AsTrigger]. *)
Inductive call_context : Type :=
| AsTrigger (trigger_data : TriggerData)
| AsFunction.

(** What a trigger function hands back. *)
Inductive result_datum : Type :=
| PointerGetDatum (tuple : option HeapTuple)
| BoolGetDatum (b : bool).

(** [SPI_getbinval(tuple, tupdesc, fnumber, &isnull)]: the value of column
    [fnumber] (counted from 1) and its null flag; a column the tuple does
    not have reads as NULL. *)
Definition SPI_getbinval (tuple : HeapTuple) (fnumber : nat) : Datum * bool :=
  match fnumber with
  | O => (ByVal 0, true)
  | S i =>
      match nth_error tuple i with
      | Some (Some d) => (d, false)
      | _ => (ByVal 0, true)
      end
  end.

(** [text_to_cstring(DatumGetTextPP(d))]. *)
Definition text_to_cstring (d : Datum) : outcome string :=
  match d with
  | Varlena bytes => Return bytes
  | _ => Undefined
  end.

(** A PostgreSQL routine that returns or reports an error. *)
Definition pg_call {A : Type} (r : string + A) : outcome A :=
  match r with
  | inl msg => Raise msg
  | inr a => Return a
  end.

(** ** [reload_configuration] *)

(** What the function can touch: the list of notifications pending at the
    current subtransaction nesting level (PostgreSQL keeps one list per
    level; a level entered anew has none yet, which is the empty list, and
    the lists of the enclosing levels are out of the function's reach), and
    the atomic word [_Dynpgext_init] allocates in shared memory. *)
Record backend_state : Type := mk_backend_state {
  pendingNotifies : list (string * string);
  configuration_reload_semaphore : Z
}.

(** [init_semaphore]: [pg_atomic_init_u32(ptr, 0)]. *)
Definition init_semaphore : Z := 0.

(** [pg_atomic_fetch_add_u32(ptr, 1)] on an unsigned 32-bit word. *)
Definition fetch_add_1 (v : Z) : Z := (v + 1) mod 4294967296.

Definition NAMEDATALEN : nat := 64.

Definition notification_eqb (a b : string * string) : bool :=
  String.eqb (fst a) (fst b) && String.eqb (snd a) (snd b).

(** [Async_Notify(channel, payload)] ([commands/async.c]): a NULL payload is
    the empty string, the channel name must be non-empty and shorter than
    [NAMEDATALEN], and the notification goes to the end of the list of the
    current nesting level unless that list holds it already; the test for a
    duplicate does not look at the enclosing levels. *)
Definition Async_Notify (channel : string) (payload : option string)
    (st : backend_state) : outcome backend_state :=
  let payload_str := match payload with None => "" | Some p => p end in
  if Nat.eqb (String.length channel) 0 then Raise "channel name cannot be empty"
  else if Nat.leb NAMEDATALEN (String.length channel) then Raise "channel name too long"
  else
    let n := (channel, payload_str) in
    if existsb (notification_eqb n) (pendingNotifies st) then Return st
    else Return (mk_backend_state (pendingNotifies st ++ [n])
                   (configuration_reload_semaphore st)).

(** Modelled from the spec: the macro [OMNI_HTTPD_CONFIGURATION_NOTIFY_CHANNEL]
    is defined in [omni_httpd.h], which is not among the sources; the spec
    says no more than that the channel name is a fixed string constant. *)
Definition OMNI_HTTPD_CONFIGURATION_NOTIFY_CHANNEL : string :=
  "omni_httpd_configuration".

Definition reload_configuration (fcinfo : call_context) (st : backend_state)
  : outcome (result_datum * backend_state) :=
  st' <- Async_Notify OMNI_HTTPD_CONFIGURATION_NOTIFY_CHANNEL None st ;;
  match fcinfo with
  | AsTrigger trigger_data => Return (PointerGetDatum (tg_newtuple trigger_data), st')
  | AsFunction => Return (BoolGetDatum true, st')
  end.

(** ** [handlers_query_validity_trigger] *)

(** The statement the validator parses into the stub [request] CTE. *)
Definition request_cte_sql : string :=
  "SELECT NULL::omni_httpd.http_method AS method, NULL::text AS path, NULL::text AS " ++
  "query_string, NULL::bytea AS body, NULL::omni_httpd.http_header[] AS headers".

Section HandlerValidator.

(** The [omni_sql] library is declared in [omni_sql.h] and defined outside
    the sources; its three entry points are taken as given.  A parse node is
    opaque. *)
Variable RawStmt : Type.

(** [omni_sql_parse_statement]: the statements of a text, or a syntax error. *)
Variable omni_sql_parse_statement : string -> string + list RawStmt.

(** [omni_sql_add_cte(stmts, cte_name, cte_stmts, recursive, prepend)]
    rewrites [stmts] in place (the caller drops the returned pointer); the
    value is the list [stmts] holds afterwards. *)
Variable omni_sql_add_cte :
  list RawStmt -> string -> list RawStmt -> bool -> bool -> string + list RawStmt.

(** [omni_sql_is_valid(stmts, &err)]: the verdict of name and type
    resolution, with the diagnostic it stores in [err]. *)
Variable omni_sql_is_valid : list RawStmt -> bool * string.

Definition handlers_query_validity_trigger (fcinfo : call_context)
  : outcome result_datum :=
  match fcinfo with
  | AsTrigger trigger_data =>
      let '(query, isnull) := SPI_getbinval (tg_trigtuple trigger_data) 2 in
      if isnull then Raise "query can't be null"
      else
        sql <- text_to_cstring query ;;
        stmts <- pg_call (omni_sql_parse_statement sql) ;;
        if negb (Nat.eqb (List.length stmts) 1) then
          Raise "query can only contain one statement"
        else
          request_cte <- pg_call (omni_sql_parse_statement request_cte_sql) ;;
          stmts' <- pg_call (omni_sql_add_cte stmts "request" request_cte false true) ;;
          let '(valid, err) := omni_sql_is_valid stmts' in
          if negb valid then Raise "invalid query"
          else Return (PointerGetDatum (Some (tg_trigtuple trigger_data)))
  | AsFunction => Raise "can only be called as a trigger"
  end.

(** What the specification asks of a candidate text: it parses as exactly
    one statement, and that statement resolves once the [request] CTE is
    put in front of it. *)
Definition parses_as_one_and_resolves (sql : string) : Prop :=
  exists stmt request_cte stmts' err,
    omni_sql_parse_statement sql = inr [stmt] /\
    omni_sql_parse_statement request_cte_sql = inr request_cte /\
    omni_sql_add_cte [stmt] "request" request_cte false true = inr stmts' /\
    omni_sql_is_valid stmts' = (true, err).

End HandlerValidator.

(** ** Vocabulary of the specification *)

(** The row a write asks to store, as a row-level trigger sees it: for an
    UPDATE [tg_newtuple], with [tg_trigtuple] the row before the change; for
    an INSERT [tg_trigtuple], with [tg_newtuple] NULL. *)
Definition candidate_row (trigger_data : TriggerData) : HeapTuple :=
  match tg_newtuple trigger_data with
  | Some new => new
  | None => tg_trigtuple trigger_data
  end.

Fixpoint lowercase (s : string) : string :=
  match s with
  | EmptyString => EmptyString
  | String c s' => String (tolower c) (lowercase s')
  end.

(** Two names are equal up to the case of their letters. *)
Definition ci_equal (a b : string) : bool := String.eqb (lowercase a) (lowercase b).

(** The array element is a header named [content-type], in any case. *)
Definition is_content_type_header (h : option http_header) : bool :=
  match h with
  | Some tuple =>
      match name tuple with
      | Some n => ci_equal n "content-type"
      | None => false
      end
  | None => false
  end.

Definition count_content_type (items : list (option http_header)) : nat :=
  List.length (filter is_content_type_header items).

(** The header sequence an optional array stands for. *)
Definition header_elems (hdrs : option ArrayType) : list (option http_header) :=
  match hdrs with
  | None => []
  | Some a => elems a
  end.

(** The inference table: the content type each supported body type gets. *)
Definition inferred_content_type (body_element_type : Oid) : option string :=
  if (body_element_type =? TEXTOID) || (body_element_type =? VARCHAROID)
     || (body_element_type =? CHAROID) then Some "text/plain; charset=utf-8"
  else if body_element_type =? BYTEAOID then Some "application/octet-stream"
  else if (body_element_type =? JSONBOID) || (body_element_type =? JSONOID)
  then Some "text/json"
  else None.

(** The representation a datum of each supported type has. *)
Definition datum_has_type (body_element_type : Oid) (d : Datum) : bool :=
  if body_element_type =? JSONBOID then
    match d with JsonbP _ => true | _ => false end
  else if body_element_type =? CHAROID then
    match d with ByVal _ => true | _ => false end
  else
    match d with Varlena _ => true | _ => false end.

(** [ArrayGetNItems]: the number of elements the dimensions announce. *)
Definition ArrayGetNItems (ds : list Z) : Z :=
  match ds with
  | [] => 0
  | _ => fold_right Z.mul 1 ds
  end.

(** The invariant of a stored array: a lower bound per dimension, positive
    dimensions, and as many elements as the dimensions announce. *)
Definition wf_array (a : ArrayType) : Prop :=
  List.length (dims a) = List.length (lbound a) /\
  Forall (fun d => 0 < d) (dims a) /\
  ArrayGetNItems (dims a) = Z.of_nat (List.length (elems a)).

Definition wf_headers (hdrs : option ArrayType) : Prop :=
  match hdrs with
  | None => True
  | Some a => wf_array a
  end.

(** A one-dimensional array with room for one more element. *)
Definition appendable (a : ArrayType) : Prop :=
  wf_array a /\
  exists dim lb,
    dims a = [dim] /\ lbound a = [lb] /\
    in_int32 lb /\ dim + 1 <= MaxArraySize /\ lb + dim + 1 <= PG_INT32_MAX.

(** The element of a one-dimensional array at subscript [indx]. *)
Definition array_get_element (a : ArrayType) (indx : Z) : option (option http_header) :=
  match lbound a with
  | [lb] => if indx <? lb then None else nth_error (elems a) (Z.to_nat (indx - lb))
  | _ => None
  end.

(** ** Decoding JSON text

    The reading of a response body back into a JSON tree: the grammar of
    RFC 8259 as [json_in] accepts it.  Escapes of the form [\uXXXX] are
    decoded to UTF-8; surrogate pairs are not supported and make the
    decoder give up. *)

Definition is_ws (c : ascii) : bool :=
  let n := N_of_ascii c in
  ((n =? 32) || (n =? 9) || (n =? 10) || (n =? 13))%N.

Fixpoint skip_ws (s : string) : string :=
  match s with
  | String c rest => if is_ws c then skip_ws rest else s
  | EmptyString => s
  end.

Definition is_digit (c : ascii) : bool :=
  let n := N_of_ascii c in ((48 <=? n) && (n <=? 57))%N.

Definition digit_val (c : ascii) : N := N_of_ascii c - 48.

(** The longest prefix of digits, and what follows it. *)
Fixpoint span_digits (s : string) : string * string :=
  match s with
  | String c rest =>
      if is_digit c then let '(ds, r) := span_digits rest in (String c ds, r)
      else (EmptyString, s)
  | EmptyString => (EmptyString, EmptyString)
  end.

(** The number a run of digits writes, continuing from [acc]. *)
Fixpoint digits_val (s : string) (acc : N) : N :=
  match s with
  | String c rest => digits_val rest (acc * 10 + digit_val c)
  | EmptyString => acc
  end.

Definition hex_val (c : ascii) : option N :=
  let n := N_of_ascii c in
  if ((48 <=? n) && (n <=? 57))%N then Some (n - 48)%N
  else if ((97 <=? n) && (n <=? 102))%N then Some (n - 87)%N
  else if ((65 <=? n) && (n <=? 70))%N then Some (n - 55)%N
  else None.

Definition hex4 (h1 h2 h3 h4 : ascii) : option N :=
  match hex_val h1, hex_val h2, hex_val h3, hex_val h4 with
  | Some a, Some b, Some c, Some d => Some (((a * 16 + b) * 16 + c) * 16 + d)%N
  | _, _, _, _ => None
  end.

(** UTF-8 of a code point of the basic plane; none for a surrogate. *)
Definition utf8_encode (code : N) : option string :=
  if (code <? 128)%N then Some (String (ascii_of_N code) "")
  else if (code <? 2048)%N then
    Some (String (ascii_of_N (192 + code / 64))
            (String (ascii_of_N (128 + code mod 64)) ""))
  else if ((55296 <=? code) && (code <=? 57343))%N then None
  else
    Some (String (ascii_of_N (224 + code / 4096))
            (String (ascii_of_N (128 + (code / 64) mod 64))
               (String (ascii_of_N (128 + code mod 64)) ""))).

(** The character a one-letter escape stands for. *)
Definition unescape (e : ascii) : option ascii :=
  let n := N_of_ascii e in
  if (n =? 34)%N then Some dquote
  else if (n =? 92)%N then Some backslash
  else if (n =? 47)%N then Some "/"%char
  else if (n =? 98)%N then Some (ascii_of_N 8)
  else if (n =? 102)%N then Some (ascii_of_N 12)
  else if (n =? 110)%N then Some (ascii_of_N 10)
  else if (n =? 114)%N then Some (ascii_of_N 13)
  else if (n =? 116)%N then Some (ascii_of_N 9)
  else None.

Definition prepend (pre : string) (r : option (string * string))
  : option (string * string) :=
  match r with
  | Some (s, rest) => Some ((pre ++ s)%string, rest)
  | None => None
  end.

(** The characters of a string literal after its opening quote, up to and
    including the closing quote. *)
Fixpoint parse_string_chars (s : string) : option (string * string) :=
  match s with
  | EmptyString => None
  | String c rest =>
      if Ascii.eqb c dquote then Some (EmptyString, rest)
      else if Ascii.eqb c backslash then
        match rest with
        | String e rest' =>
            if Ascii.eqb e "u"%char then
              match rest' with
              | String h1 (String h2 (String h3 (String h4 rest''))) =>
                  match hex4 h1 h2 h3 h4 with
                  | Some code =>
                      match utf8_encode code with
                      | Some bytes => prepend bytes (parse_string_chars rest'')
                      | None => None
                      end
                  | None => None
                  end
              | _ => None
              end
            else
              match unescape e with
              | Some ch => prepend (String ch "") (parse_string_chars rest')
              | None => None
              end
        | EmptyString => None
        end
      else if (N_of_ascii c <? 32)%N then None
      else prepend (String c "") (parse_string_chars rest)
  end.

(** A run of digits allowed as the integer part: one digit, or several not
    starting with zero. *)
Definition int_part_ok (ds : string) : bool :=
  match ds with
  | EmptyString => false
  | String c EmptyString => true
  | String c _ => negb (Ascii.eqb c "0"%char)
  end.

(** The optional fraction: a dot and at least one digit. *)
Definition parse_fraction (s : string) : option (string * string) :=
  match s with
  | String c rest =>
      if Ascii.eqb c "."%char then
        let '(ds, r) := span_digits rest in
        match ds with
        | EmptyString => None
        | _ => Some (ds, r)
        end
      else Some (EmptyString, s)
  | EmptyString => Some (EmptyString, s)
  end.

(** The optional exponent: [e] or [E], a sign, at least one digit. *)
Definition parse_exponent (s : string) : option (Z * string) :=
  match s with
  | String c rest =>
      if Ascii.eqb c "e"%char || Ascii.eqb c "E"%char then
        let '(negative, rest1) :=
          match rest with
          | String sg r =>
              if Ascii.eqb sg "-"%char then (true, r)
              else if Ascii.eqb sg "+"%char then (false, r)
              else (false, rest)
          | EmptyString => (false, rest)
          end in
        let '(ds, r) := span_digits rest1 in
        match ds with
        | EmptyString => None
        | _ =>
            let e := Z.of_N (digits_val ds 0) in
            Some (if negative then - e else e, r)
        end
      else Some (0, s)
  | EmptyString => Some (0, s)
  end.

(** A JSON number as [numeric_in] reads it: the digits give the mantissa,
    the fraction's length less the exponent gives the display scale. *)
Definition parse_number (s : string) : option (JsonbValue * string) :=
  let '(negative, s1) :=
    match s with
    | String c rest => if Ascii.eqb c "-"%char then (true, rest) else (false, s)
    | EmptyString => (false, s)
    end in
  let '(int_digits, s2) := span_digits s1 in
  if negb (int_part_ok int_digits) then None
  else
    match parse_fraction s2 with
    | None => None
    | Some (frac_digits, s3) =>
        match parse_exponent s3 with
        | None => None
        | Some (e, s4) =>
            let m := Z.of_N (digits_val (int_digits ++ frac_digits) 0) in
            let d := Z.of_nat (String.length frac_digits) in
            let m' := if d <=? e then m * 10 ^ (e - d) else m in
            let dscale := if d <=? e then O else Z.to_nat (d - e) in
            Some (jbvNumeric (if negative then - m' else m') dscale, s4)
        end
    end.

(** [s] starts with the literal [lit]; what follows it. *)
Fixpoint expect (lit s : string) : option string :=
  match lit, s with
  | EmptyString, _ => Some s
  | String a lit', String b s' => if Ascii.eqb a b then expect lit' s' else None
  | String _ _, EmptyString => None
  end.

Fixpoint parse_value (fuel : nat) (s : string) {struct fuel}
  : option (JsonbValue * string) :=
  match fuel with
  | O => None
  | S fuel' =>
      match skip_ws s with
      | EmptyString => None
      | String c rest =>
          if Ascii.eqb c "n"%char then
            match expect "ull" rest with Some r => Some (jbvNull, r) | None => None end
          else if Ascii.eqb c "t"%char then
            match expect "rue" rest with
            | Some r => Some (jbvBool true, r)
            | None => None
            end
          else if Ascii.eqb c "f"%char then
            match expect "alse" rest with
            | Some r => Some (jbvBool false, r)
            | None => None
            end
          else if Ascii.eqb c dquote then
            match parse_string_chars rest with
            | Some (str, r) => Some (jbvString str, r)
            | None => None
            end
          else if Ascii.eqb c "["%char then
            match skip_ws rest with
            | String c' r =>
                if Ascii.eqb c' "]"%char then Some (jbvArray [], r)
                else
                  match parse_elems fuel' rest with
                  | Some (vs, r') => Some (jbvArray vs, r')
                  | None => None
                  end
            | EmptyString => None
            end
          else if Ascii.eqb c "{"%char then
            match skip_ws rest with
            | String c' r =>
                if Ascii.eqb c' "}"%char then Some (jbvObject [], r)
                else
                  match parse_members fuel' rest with
                  | Some (ps, r') => Some (jbvObject ps, r')
                  | None => None
                  end
            | EmptyString => None
            end
          else parse_number (String c rest)
      end
  end

with parse_elems (fuel : nat) (s : string) {struct fuel}
  : option (list JsonbValue * string) :=
  match fuel with
  | O => None
  | S fuel' =>
      match parse_value fuel' s with
      | Some (v, rest) =>
          match skip_ws rest with
          | String c r =>
              if Ascii.eqb c ","%char then
                match parse_elems fuel' r with
                | Some (vs, r') => Some (v :: vs, r')
                | None => None
                end
              else if Ascii.eqb c "]"%char then Some ([v], r)
              else None
          | EmptyString => None
          end
      | None => None
      end
  end

with parse_members (fuel : nat) (s : string) {struct fuel}
  : option (list (string * JsonbValue) * string) :=
  match fuel with
  | O => None
  | S fuel' =>
      match skip_ws s with
      | String q rest =>
          if Ascii.eqb q dquote then
            match parse_string_chars rest with
            | Some (key, rest1) =>
                match skip_ws rest1 with
                | String colon rest2 =>
                    if Ascii.eqb colon ":"%char then
                      match parse_value fuel' rest2 with
                      | Some (v, rest3) =>
                          match skip_ws rest3 with
                          | String c r =>
                              if Ascii.eqb c ","%char then
                                match parse_members fuel' r with
                                | Some (ps, r') => Some ((key, v) :: ps, r')
                                | None => None
                                end
                              else if Ascii.eqb c "}"%char then Some ([(key, v)], r)
                              else None
                          | EmptyString => None
                          end
                      | None => None
                      end
                    else None
                | EmptyString => None
                end
            | None => None
            end
          else None
      | EmptyString => None
      end
  end.

(** A whole text decodes to the value it writes, blanks around it allowed. *)
Definition json_decode (text : string) : option JsonbValue :=
  match parse_value (String.length text) text with
  | Some (v, rest) =>
      match skip_ws rest with
      | EmptyString => Some v
      | String _ _ => None
      end
  | None => None
  end.

(** The body of a response read back as JSON. *)
Definition decode_body (b : option Datum) : option JsonbValue :=
  match b with
  | Some (Varlena bytes) => json_decode bytes
  | _ => None
  end.

(** The re-encoding of the value a JSON text writes, in the text form
    jsonb values are output in. *)
Definition canonical_json_text (text : string) : option string :=
  match json_decode text with
  | Some v => Some (JsonbToCString v)
  | None => None
  end.

(** ** Auxiliary notions for reading written JSON back *)

Fixpoint all_digits (s : string) : bool :=
  match s with
  | EmptyString => true
  | String c rest => is_digit c && all_digits rest
  end.

(** The text does not go on with a digit. *)
Definition no_digit_ahead (s : string) : bool :=
  match s with
  | EmptyString => true
  | String c _ => negb (is_digit c)
  end.

(** What may follow a number: nothing that would extend it. *)
Definition number_end (s : string) : bool :=
  match s with
  | EmptyString => true
  | String c _ =>
      negb (is_digit c) && negb (Ascii.eqb c ".") && negb (Ascii.eqb c "e")
      && negb (Ascii.eqb c "E")
  end.

(** The fraction [numeric_out] writes for a scale and its digits. *)
Definition fraction_text (fracs : string) : string :=
  match fracs with
  | EmptyString => EmptyString
  | String _ _ => String "." fracs
  end.

(** One pair of an object as it is written. *)
Definition member_text (kv : string * JsonbValue) : string :=
  escape_json (fst kv) ++ ": " ++ JsonbToCString (snd kv).

Fixpoint all_ws (s : string) : bool :=
  match s with
  | EmptyString => true
  | String c rest => is_ws c && all_ws rest
  end.

(** The first character of a written value: no blank, no closing bracket,
    so a reader's dispatch sees the value at once. *)
Definition token_head (c : ascii) : bool :=
  negb (is_ws c) && negb (Ascii.eqb c "]") && negb (Ascii.eqb c "}").

Definition starts_token (s : string) : bool :=
  match s with
  | EmptyString => false
  | String c _ => token_head c
  end.

(** A written value, whatever blanks precede it, is read back whole as
    soon as the fuel covers its length and what follows cannot extend it. *)
Definition reads_back (v : JsonbValue) : Prop :=
  forall fuel pre rest,
    all_ws pre = true ->
    (String.length (JsonbToCString v) <= fuel)%nat ->
    number_end rest = true ->
    parse_value fuel (pre ++ JsonbToCString v ++ rest) = Some (v, rest).

(** ** Further vocabulary: the scan's test on names *)

(** A text without a NUL byte, as every stored [text] value is. *)
Fixpoint NUL_free (s : string) : bool :=
  match s with
  | EmptyString => true
  | String c rest => negb (Ascii.eqb c NUL) && NUL_free rest
  end.

(** The name, lowered, is an initial part of [content-type]. *)
Definition name_matches (n : string) : bool :=
  String.prefix (lowercase n) "content-type".

Definition element_matches (h : option http_header) : bool :=
  match h with
  | Some tuple =>
      match name tuple with
      | Some n => name_matches n
      | None => false
      end
  | None => false
  end.

Definition names_NUL_free (items : list (option http_header)) : bool :=
  forallb (fun h =>
             match h with
             | Some tuple =>
                 match name tuple with
                 | Some n => NUL_free n
                 | None => true
                 end
             | None => true
             end) items.

(** Two array elements that differ at most in the case of the letters of
    their names. *)
Definition same_name_up_to_case (x y : option http_header) : Prop :=
  match x, y with
  | None, None => True
  | Some t1, Some t2 =>
      match name t1, name t2 with
      | None, None => True
      | Some n1, Some n2 => lowercase n1 = lowercase n2
      | _, _ => False
      end
  | _, _ => False
  end.

(** ** The background worker [_Dynpgext_init] registers *)

Definition BGW_MAXLEN : nat := 96.

(** [strncpy(dest, src, n)]: the [n] bytes it writes, the characters of the
    C string [src] followed by NULs. *)
Fixpoint strncpy (src : string) (n : nat) : list ascii :=
  match n with
  | O => []
  | S n' =>
      match src with
      | EmptyString => NUL :: strncpy EmptyString n'
      | String c rest =>
          if Ascii.eqb c NUL then NUL :: strncpy EmptyString n'
          else c :: strncpy rest n'
      end
  end.

(** The C string a buffer holds: its bytes before the first NUL; none when
    the buffer has no NUL. *)
Fixpoint cstring_of (buf : list ascii) : option string :=
  match buf with
  | [] => None
  | c :: rest =>
      if Ascii.eqb c NUL then Some EmptyString
      else match cstring_of rest with
           | Some s => Some (String c s)
           | None => None
           end
  end.

Definition BGWORKER_SHMEM_ACCESS : Z := 1.
Definition BGWORKER_BACKEND_DATABASE_CONNECTION : Z := 2.

(** The fields of [BackgroundWorker] that [_Dynpgext_init] sets;
    [bgw_library_name] is the first [BGW_MAXLEN] bytes of the field. *)
Record BackgroundWorker : Type := mk_BackgroundWorker {
  bgw_name : string;
  bgw_type : string;
  bgw_function_name : string;
  bgw_flags : Z;
  bgw_library_name : list ascii
}.

(** The worker description [_Dynpgext_init] builds from the handle's
    library name and passes to [register_bgworker]. *)
Definition _Dynpgext_init_bgw (library_name : string) : BackgroundWorker :=
  mk_BackgroundWorker "omni_httpd" "omni_httpd" "master_worker"
    (Z.lor BGWORKER_SHMEM_ACCESS BGWORKER_BACKEND_DATABASE_CONNECTION)
    (strncpy library_name BGW_MAXLEN).

(** ** Sample inputs *)

Definition xml_headers : ArrayType :=
  mk_ArrayType [1] [1]
    [Some (mk_http_header (Some "Content-Type") (Some "application/xml") (Some false))].

Definition cache_headers : ArrayType :=
  mk_ArrayType [2] [1]
    [Some (mk_http_header (Some "x-request-id") (Some "42") (Some false));
     Some (mk_http_header (Some "cache-control") (Some "no-store") (Some true))].

(** A header whose name is a proper prefix of [content-type]. *)
Definition content_headers : ArrayType :=
  mk_ArrayType [1] [1]
    [Some (mk_http_header (Some "content") (Some "x") (Some false))].

(** A JSON object with the one member [a], value 1, written without a
    blank after the colon; and the same value as jsonb output writes it,
    with one. *)
Definition json_a1 : string :=
  "{" ++ String dquote "a" ++ String dquote ":1}".

Definition json_a1_canonical : string :=
  "{" ++ String dquote "a" ++ String dquote ": 1}".

(* ------------------------------------------------------------------ *)
(** * Properties *)

(** ** Outcomes *)

Lemma bind_Return {A B : Type} (m : outcome A) (k : A -> outcome B) (b : B) :
  bind m k = Return b -> exists a, m = Return a /\ k a = Return b.
Proof.
  destruct m as [a | msg | ]; simpl; intros H; try discriminate.
  exists a; split; [reflexivity | exact H].
Qed.

Ltac inv_bind H :=
  let x := fresh "x" in
  let Hx := fresh "Hx" in
  apply bind_Return in H; destruct H as [x [Hx H]].

(** ** Overflow-checked addition *)

Arguments pg_add_s32_overflow : simpl never.

Lemma wrap_s32_in_range (z : Z) : in_int32 z -> wrap_s32 z = z.
Proof.
  unfold in_int32, wrap_s32, PG_INT32_MIN, PG_INT32_MAX. intros H.
  rewrite Z.mod_small by lia. lia.
Qed.

Lemma pg_add_s32_overflow_in_range (a b : Z) :
  in_int32 (a + b) -> pg_add_s32_overflow a b = (false, a + b).
Proof.
  intros H. unfold pg_add_s32_overflow.
  rewrite (wrap_s32_in_range _ H).
  unfold in_int32 in H.
  destruct (Z.ltb_spec (a + b) PG_INT32_MIN); [lia |].
  destruct (Z.ltb_spec PG_INT32_MAX (a + b)); [lia |].
  reflexivity.
Qed.

Lemma pg_add_s32_overflow_out_of_range (a b : Z) :
  ~ in_int32 (a + b) -> fst (pg_add_s32_overflow a b) = true.
Proof.
  intros H. unfold pg_add_s32_overflow, in_int32 in *. simpl.
  destruct (Z.ltb_spec (a + b) PG_INT32_MIN); [reflexivity |].
  destruct (Z.ltb_spec PG_INT32_MAX (a + b)); [reflexivity | lia].
Qed.

Lemma pg_add_s32_overflow_flag (a b : Z) :
  fst (pg_add_s32_overflow a b) = false -> in_int32 (a + b).
Proof.
  unfold pg_add_s32_overflow, in_int32. simpl. intros H.
  apply orb_false_iff in H. destruct H as [H1 H2].
  apply Z.ltb_ge in H1. apply Z.ltb_ge in H2. lia.
Qed.

(** ** Case-insensitive comparison *)

Lemma strncasecmp_lowercase_eq (s1 : string) :
  forall s2, lowercase s1 = lowercase s2 ->
             strncasecmp s1 s2 (String.length s1) = 0.
Proof.
  induction s1 as [| c1 t1 IH]; intros s2 H; [reflexivity |].
  destruct s2 as [| c2 t2]; simpl in H; [discriminate |].
  injection H as Hc Ht. simpl. rewrite Hc, Ascii.eqb_refl. simpl.
  destruct (Ascii.eqb (tolower c2) NUL); [reflexivity | apply IH; exact Ht].
Qed.

Lemma ci_equal_strncasecmp (n : string) :
  ci_equal n "content-type" = true ->
  strncasecmp n "content-type" (String.length n) = 0.
Proof.
  unfold ci_equal. intros H. apply String.eqb_eq in H.
  apply strncasecmp_lowercase_eq. exact H.
Qed.

Lemma scan_finds_content_type (items : list (option http_header)) :
  existsb is_content_type_header items = true -> scan_content_type items = true.
Proof.
  induction items as [| [tuple |] rest IH]; simpl; intros H; try discriminate.
  - destruct (name tuple) as [n |] eqn:En.
    + destruct (ci_equal n "content-type") eqn:Eci.
      * rewrite (ci_equal_strncasecmp n Eci). reflexivity.
      * simpl in H.
        destruct (strncasecmp n "content-type" (String.length n) =? 0);
          [reflexivity | apply IH; exact H].
    + apply IH. exact H.
  - apply IH. exact H.
Qed.

(** ** Decimal digits *)

Lemma length_append (a b : string) :
  String.length (a ++ b) = (String.length a + String.length b)%nat.
Proof.
  induction a as [| c a IH]; simpl; [reflexivity | rewrite IH; reflexivity].
Qed.

Lemma append_assoc (a b c : string) : ((a ++ b) ++ c)%string = (a ++ (b ++ c))%string.
Proof.
  induction a as [| x a IH]; simpl; [reflexivity | rewrite IH; reflexivity].
Qed.

Lemma append_empty_r (a : string) : (a ++ "")%string = a.
Proof.
  induction a as [| x a IH]; simpl; [reflexivity | rewrite IH; reflexivity].
Qed.

Lemma N_of_digit_char (d : N) : (d < 10)%N -> N_of_ascii (digit_char d) = (48 + d)%N.
Proof.
  intros H. unfold digit_char. apply N_ascii_embedding. lia.
Qed.

Lemma is_digit_digit_char (d : N) : (d < 10)%N -> is_digit (digit_char d) = true.
Proof.
  intros H. unfold is_digit. rewrite (N_of_digit_char d H).
  apply andb_true_iff. split; apply N.leb_le; lia.
Qed.

Lemma digit_val_digit_char (d : N) : (d < 10)%N -> digit_val (digit_char d) = d.
Proof.
  intros H. unfold digit_val. rewrite (N_of_digit_char d H). lia.
Qed.

Lemma mod_10_lt (n : N) : (n mod 10 < 10)%N.
Proof. apply N.mod_lt. discriminate. Qed.

Lemma all_digits_fixed_digits (d : nat) (f : N) : all_digits (fixed_digits d f) = true.
Proof.
  induction d as [| d IH]; simpl; [reflexivity |].
  rewrite is_digit_digit_char by apply mod_10_lt. exact IH.
Qed.

Lemma length_fixed_digits (d : nat) (f : N) : String.length (fixed_digits d f) = d.
Proof.
  induction d as [| d IH]; simpl; [reflexivity | rewrite IH; reflexivity].
Qed.

Lemma digits_val_fixed_digits (d : nat) (f acc : N) :
  digits_val (fixed_digits d f) acc = (acc * 10 ^ N.of_nat d + f mod 10 ^ N.of_nat d)%N.
Proof.
  revert acc. induction d as [| d IH]; intros acc.
  - simpl. rewrite N.mod_1_r. lia.
  - cbn [fixed_digits digits_val]. rewrite IH.
    rewrite digit_val_digit_char by apply mod_10_lt.
    rewrite Nat2N.inj_succ, N.pow_succ_r'.
    set (p := (10 ^ N.of_nat d)%N).
    assert (Hp : (p <> 0)%N) by (apply N.pow_nonzero; discriminate).
    rewrite (N.mul_comm 10 p).
    rewrite (N.Div0.mod_mul_r f p 10). lia.
Qed.

Lemma digits_val_append (a b : string) (acc : N) :
  digits_val (a ++ b) acc = digits_val b (digits_val a acc).
Proof.
  revert acc. induction a as [| c a IH]; intros acc; simpl; [reflexivity | apply IH].
Qed.

Lemma span_digits_append (ds rest : string) :
  all_digits ds = true -> no_digit_ahead rest = true ->
  span_digits (ds ++ rest) = (ds, rest).
Proof.
  intros Hds Hrest. induction ds as [| c ds IH].
  - cbn [String.append]. destruct rest as [| c r]; [reflexivity |].
    cbn [span_digits]. unfold no_digit_ahead in Hrest.
    apply negb_true_iff in Hrest. rewrite Hrest. reflexivity.
  - cbn [all_digits] in Hds. apply andb_true_iff in Hds. destruct Hds as [Hc Hds].
    cbn [String.append span_digits]. rewrite Hc, (IH Hds). reflexivity.
Qed.

Lemma strip_zeros_cons (c c' : ascii) (s : string) :
  strip_zeros (String c (String c' s)) =
  if Ascii.eqb c "0" then strip_zeros (String c' s) else String c (String c' s).
Proof. reflexivity. Qed.

Lemma all_digits_strip_zeros (s : string) :
  all_digits s = true -> all_digits (strip_zeros s) = true.
Proof.
  induction s as [| c s IH]; intros H; [reflexivity |].
  destruct s as [| c' s']; [exact H |].
  rewrite strip_zeros_cons. destruct (Ascii.eqb c "0"); [| exact H].
  apply IH. cbn [all_digits] in H. apply andb_true_iff in H. apply H.
Qed.

Lemma digits_val_strip_zeros (s : string) :
  digits_val (strip_zeros s) 0 = digits_val s 0.
Proof.
  induction s as [| c s IH]; [reflexivity |].
  destruct s as [| c' s']; [reflexivity |].
  rewrite strip_zeros_cons. destruct (Ascii.eqb c "0") eqn:E; [| reflexivity].
  apply Ascii.eqb_eq in E. subst c. rewrite IH. reflexivity.
Qed.

Lemma int_part_ok_strip_zeros (s : string) :
  s <> EmptyString -> int_part_ok (strip_zeros s) = true.
Proof.
  induction s as [| c s IH]; intros H; [congruence |].
  destruct s as [| c' s']; [reflexivity |].
  rewrite strip_zeros_cons. destruct (Ascii.eqb c "0") eqn:E.
  - apply IH. discriminate.
  - cbn [int_part_ok]. rewrite E. reflexivity.
Qed.

Lemma lt_pow10_size (n : N) : (n < 10 ^ N.of_nat (S (N.to_nat (N.size n))))%N.
Proof.
  rewrite Nat2N.inj_succ, N2Nat.id.
  apply N.lt_le_trans with (2 ^ N.size n)%N.
  - apply N.size_gt.
  - apply N.le_trans with (10 ^ N.size n)%N.
    + apply N.pow_le_mono_l. lia.
    + apply N.pow_le_mono_r; lia.
Qed.

Lemma all_digits_nat_digits (n : N) : all_digits (nat_digits n) = true.
Proof.
  unfold nat_digits. apply all_digits_strip_zeros, all_digits_fixed_digits.
Qed.

Lemma int_part_ok_nat_digits (n : N) : int_part_ok (nat_digits n) = true.
Proof.
  unfold nat_digits. apply int_part_ok_strip_zeros. discriminate.
Qed.

Lemma digits_val_nat_digits (n : N) : digits_val (nat_digits n) 0 = n.
Proof.
  unfold nat_digits. rewrite digits_val_strip_zeros, digits_val_fixed_digits.
  rewrite N.mod_small by apply lt_pow10_size. lia.
Qed.

(** ** Numbers read back *)

Lemma number_end_no_digit (s : string) : number_end s = true -> no_digit_ahead s = true.
Proof.
  destruct s as [| c r]; [reflexivity |]. unfold number_end, no_digit_ahead.
  intros H. repeat (apply andb_true_iff in H; destruct H as [H _]). exact H.
Qed.

Lemma parse_fraction_end (s : string) :
  number_end s = true -> parse_fraction s = Some (EmptyString, s).
Proof.
  destruct s as [| c r]; [reflexivity |]. unfold number_end, parse_fraction.
  intros H. apply andb_true_iff in H. destruct H as [H _].
  apply andb_true_iff in H. destruct H as [H _].
  apply andb_true_iff in H. destruct H as [_ H].
  apply negb_true_iff in H. rewrite H. reflexivity.
Qed.

Lemma parse_exponent_end (s : string) :
  number_end s = true -> parse_exponent s = Some (0, s).
Proof.
  destruct s as [| c r]; [reflexivity |]. unfold number_end, parse_exponent.
  intros H. apply andb_true_iff in H. destruct H as [H HE].
  apply andb_true_iff in H. destruct H as [_ He].
  apply negb_true_iff in He. apply negb_true_iff in HE. rewrite He, HE. reflexivity.
Qed.

Lemma is_digit_not_minus (c : ascii) : is_digit c = true -> Ascii.eqb c "-" = false.
Proof.
  intros H. destruct (Ascii.eqb_spec c "-") as [E | E]; [| reflexivity].
  subst c. discriminate.
Qed.

Lemma parse_fraction_text (fracs rest : string) :
  all_digits fracs = true -> number_end rest = true ->
  parse_fraction (fraction_text fracs ++ rest) = Some (fracs, rest).
Proof.
  intros Hd Hend. destruct fracs as [| c fs].
  - apply parse_fraction_end. exact Hend.
  - cbn [fraction_text String.append parse_fraction].
    change (Ascii.eqb "." ".") with true. cbv iota.
    change (String c (fs ++ rest)) with (String c fs ++ rest)%string.
    rewrite (span_digits_append _ _ Hd (number_end_no_digit _ Hend)). reflexivity.
Qed.

Lemma no_digit_ahead_fraction (fracs rest : string) :
  number_end rest = true -> no_digit_ahead (fraction_text fracs ++ rest) = true.
Proof.
  intros H. destruct fracs; [apply number_end_no_digit; exact H | reflexivity].
Qed.

(** A sign, an integer part and a fraction, read as a number. *)
Lemma parse_number_digits (negative : bool) (ints fracs rest : string) :
  all_digits ints = true -> int_part_ok ints = true ->
  all_digits fracs = true -> number_end rest = true ->
  parse_number ((if negative then "-" else "") ++ ints ++ fraction_text fracs ++ rest) =
  Some (jbvNumeric
          (let m := Z.of_N (digits_val (ints ++ fracs) 0) in
           if negative then - m else m)
          (String.length fracs), rest).
Proof.
  intros Hi Hok Hf Hend. unfold parse_number.
  assert (Hsign :
    match ((if negative then "-" else "") ++ ints ++ fraction_text fracs ++ rest)%string with
    | String c r =>
        if Ascii.eqb c "-" then (true, r)
        else (false, ((if negative then "-" else "") ++ ints ++ fraction_text fracs ++ rest)%string)
    | EmptyString =>
        (false, ((if negative then "-" else "") ++ ints ++ fraction_text fracs ++ rest)%string)
    end = (negative, (ints ++ fraction_text fracs ++ rest)%string)).
  { destruct negative; [reflexivity |]. cbn [String.append].
    destruct ints as [| c ints']; [discriminate |]. cbn [String.append].
    cbn [all_digits] in Hi. apply andb_true_iff in Hi. destruct Hi as [Hc _].
    rewrite (is_digit_not_minus c Hc). reflexivity. }
  rewrite Hsign.
  rewrite (span_digits_append _ _ Hi (no_digit_ahead_fraction fracs rest Hend)).
  rewrite Hok. cbn [negb].
  rewrite (parse_fraction_text fracs rest Hf Hend).
  rewrite (parse_exponent_end rest Hend).
  destruct (Z.leb_spec (Z.of_nat (String.length fracs)) 0) as [Hle | Hgt].
  - assert (Hz : String.length fracs = O) by lia. rewrite Hz.
    replace (0 - Z.of_nat 0) with 0 by lia. rewrite Z.pow_0_r, Z.mul_1_r. reflexivity.
  - replace (Z.to_nat (Z.of_nat (String.length fracs) - 0)) with (String.length fracs) by lia.
    reflexivity.
Qed.

Lemma parse_number_numeric_out (m : Z) (d : nat) (rest : string) :
  number_end rest = true ->
  parse_number (numeric_out m d ++ rest) = Some (jbvNumeric m d, rest).
Proof.
  intros Hend. unfold numeric_out.
  set (p := (10 ^ N.of_nat d)%N).
  assert (Hp : (p <> 0)%N) by (apply N.pow_nonzero; discriminate).
  set (ints := nat_digits (Z.abs_N m / p)).
  set (fracs := fixed_digits d (Z.abs_N m mod p)).
  assert (Hfrac : match d with
                  | O => ""
                  | S _ => String "." fracs
                  end = fraction_text fracs).
  { unfold fracs. destruct d; reflexivity. }
  rewrite Hfrac. rewrite !append_assoc.
  rewrite (parse_number_digits (m <? 0) ints fracs rest);
    [| apply all_digits_nat_digits | apply int_part_ok_nat_digits
     | apply all_digits_fixed_digits | exact Hend].
  assert (Hlen : String.length fracs = d) by apply length_fixed_digits.
  assert (Hval : Z.of_N (digits_val (ints ++ fracs) 0) = Z.abs m).
  { unfold ints, fracs. rewrite digits_val_append, digits_val_nat_digits.
    rewrite digits_val_fixed_digits. fold p.
    rewrite N.Div0.mod_mod.
    replace (Z.abs_N m / p * p + Z.abs_N m mod p)%N with (Z.abs_N m)
      by (rewrite (N.div_mod (Z.abs_N m) p Hp) at 1; lia).
    apply N2Z.inj_abs_N. }
  cbv zeta. rewrite Hlen, Hval.
  destruct (m <? 0) eqn:E; [apply Z.ltb_lt in E | apply Z.ltb_ge in E];
    do 3 f_equal; lia.
Qed.

(** ** String literals read back *)

Lemma parse_escape_json_char (c : ascii) (tail : string) :
  parse_string_chars (escape_json_char c ++ tail) =
  prepend (String c "") (parse_string_chars tail).
Proof.
  destruct c as [b0 b1 b2 b3 b4 b5 b6 b7].
  destruct b0, b1, b2, b3, b4, b5, b6, b7; reflexivity.
Qed.

Lemma parse_escape_json_chars (s rest : string) :
  parse_string_chars (escape_json_chars s ++ String dquote rest) = Some (s, rest).
Proof.
  induction s as [| c s IH].
  - reflexivity.
  - cbn [escape_json_chars]. rewrite append_assoc, parse_escape_json_char, IH.
    reflexivity.
Qed.

(** A literal as [escape_json] writes it, after its opening quote. *)
Lemma escape_json_unfold (s : string) :
  escape_json s = String dquote (escape_json_chars s ++ String dquote "").
Proof. reflexivity. Qed.

(** ** Values read back *)

Lemma JsonbValue_induction (P : JsonbValue -> Prop) :
  P jbvNull ->
  (forall b, P (jbvBool b)) ->
  (forall m d, P (jbvNumeric m d)) ->
  (forall s, P (jbvString s)) ->
  (forall l, Forall P l -> P (jbvArray l)) ->
  (forall ps, Forall (fun kv => P (snd kv)) ps -> P (jbvObject ps)) ->
  forall v, P v.
Proof.
  intros Hnull Hbool Hnum Hstr Harr Hobj. fix IH 1.
  intros [| b | m d | s | l | ps].
  - exact Hnull.
  - apply Hbool.
  - apply Hnum.
  - apply Hstr.
  - apply Harr. induction l as [| x l IHl]; constructor; [apply IH | exact IHl].
  - apply Hobj. induction ps as [| kv ps IHps]; constructor; [apply IH | exact IHps].
Qed.

Lemma JsonbToCString_array (l : list JsonbValue) :
  JsonbToCString (jbvArray l) =
  String "[" (join_comma (map JsonbToCString l) ++ "]").
Proof. reflexivity. Qed.

Lemma JsonbToCString_object (ps : list (string * JsonbValue)) :
  JsonbToCString (jbvObject ps) =
  String "{" (join_comma (map member_text ps) ++ "}").
Proof. reflexivity. Qed.

Lemma join_comma_cons (x y : string) (l : list string) :
  join_comma (x :: y :: l) = (x ++ ", " ++ join_comma (y :: l))%string.
Proof. reflexivity. Qed.

Lemma skip_ws_append (pre s : string) :
  all_ws pre = true -> skip_ws (pre ++ s) = skip_ws s.
Proof.
  induction pre as [| c pre IH]; intros H; [reflexivity |].
  cbn [all_ws] in H. apply andb_true_iff in H. destruct H as [Hc Hpre].
  cbn [String.append skip_ws]. rewrite Hc. apply IH. exact Hpre.
Qed.

Lemma starts_token_append (s rest : string) :
  starts_token s = true -> starts_token (s ++ rest) = true.
Proof.
  destruct s as [| c s]; [discriminate | intros H; exact H].
Qed.

Lemma is_digit_token_head (c : ascii) : is_digit c = true -> token_head c = true.
Proof.
  destruct c as [b0 b1 b2 b3 b4 b5 b6 b7].
  destruct b0, b1, b2, b3, b4, b5, b6, b7; intros H; try discriminate H; reflexivity.
Qed.

Lemma nat_digits_head (n : N) :
  exists c s, nat_digits n = String c s /\ is_digit c = true.
Proof.
  pose proof (all_digits_nat_digits n) as Hd.
  pose proof (int_part_ok_nat_digits n) as Hok.
  destruct (nat_digits n) as [| c s]; [discriminate |].
  exists c, s. split; [reflexivity |].
  cbn [all_digits] in Hd. apply andb_true_iff in Hd. apply Hd.
Qed.

(** A written number starts with a minus sign or a digit. *)
Lemma numeric_out_head (m : Z) (d : nat) :
  exists c s, numeric_out m d = String c s /\ (is_digit c = true \/ c = "-"%char).
Proof.
  unfold numeric_out.
  destruct (nat_digits_head (Z.abs_N m / 10 ^ N.of_nat d)) as [c [s [Hs Hc]]].
  rewrite Hs. destruct (m <? 0).
  - eexists; eexists; split; [reflexivity | right; reflexivity].
  - eexists; eexists; split; [reflexivity | left; exact Hc].
Qed.

Lemma starts_token_JsonbToCString (v : JsonbValue) :
  starts_token (JsonbToCString v) = true.
Proof.
  destruct v as [| [|] | m d | s | l | ps]; try reflexivity.
  destruct (numeric_out_head m d) as [c [s [Hs [Hc | Hc]]]];
    cbn [JsonbToCString]; rewrite Hs; cbn [starts_token].
  - apply is_digit_token_head. exact Hc.
  - subst c. reflexivity.
Qed.

Lemma skip_ws_token (s : string) : starts_token s = true -> skip_ws s = s.
Proof.
  destruct s as [| c s]; [discriminate |]. cbn [starts_token skip_ws]. unfold token_head.
  intros H. apply andb_true_iff in H. destruct H as [H _].
  apply andb_true_iff in H. destruct H as [H _].
  apply negb_true_iff in H. rewrite H. reflexivity.
Qed.

(** On a minus sign or a digit the reader goes to [parse_number]. *)
Lemma parse_value_number (fuel : nat) (c : ascii) (s : string) :
  is_digit c = true \/ c = "-"%char ->
  parse_value (S fuel) (String c s) = parse_number (String c s).
Proof.
  destruct c as [b0 b1 b2 b3 b4 b5 b6 b7].
  destruct b0, b1, b2, b3, b4, b5, b6, b7; intros [H | H];
    try discriminate H; reflexivity.
Qed.

Lemma length_JsonbToCString_pos (v : JsonbValue) :
  (1 <= String.length (JsonbToCString v))%nat.
Proof.
  pose proof (starts_token_JsonbToCString v) as H.
  destruct (JsonbToCString v); [discriminate | simpl; lia].
Qed.

Lemma parse_value_ws (fuel : nat) (pre s : string) :
  all_ws pre = true -> parse_value fuel (pre ++ s) = parse_value fuel s.
Proof.
  intros H. destruct fuel as [| fuel]; [reflexivity |].
  cbn [parse_value]. rewrite (skip_ws_append pre s H). reflexivity.
Qed.

Lemma parse_members_ws (fuel : nat) (pre s : string) :
  all_ws pre = true -> parse_members fuel (pre ++ s) = parse_members fuel s.
Proof.
  intros H. destruct fuel as [| fuel]; [reflexivity |].
  cbn [parse_members]. rewrite (skip_ws_append pre s H). reflexivity.
Qed.

Lemma parse_elems_S (fuel : nat) (s : string) :
  parse_elems (S fuel) s =
  match parse_value fuel s with
  | Some (v, rest) =>
      match skip_ws rest with
      | String c r =>
          if Ascii.eqb c "," then
            match parse_elems fuel r with
            | Some (vs, r') => Some (v :: vs, r')
            | None => None
            end
          else if Ascii.eqb c "]" then Some ([v], r)
          else None
      | EmptyString => None
      end
  | None => None
  end.
Proof. reflexivity. Qed.

Lemma parse_value_array (fuel : nat) (s : string) :
  starts_token s = true ->
  parse_value (S fuel) (String "[" s) =
  match parse_elems fuel s with
  | Some (vs, r) => Some (jbvArray vs, r)
  | None => None
  end.
Proof.
  intros H. cbn [parse_value skip_ws]. change (is_ws "[") with false. cbv iota.
  change (Ascii.eqb "[" "n") with false. change (Ascii.eqb "[" "t") with false.
  change (Ascii.eqb "[" "f") with false. change (Ascii.eqb "[" dquote) with false.
  change (Ascii.eqb "[" "[") with true. cbv iota.
  rewrite (skip_ws_token s H). destruct s as [| c s]; [discriminate |].
  cbn [starts_token] in H. unfold token_head in H.
  apply andb_true_iff in H. destruct H as [H _].
  apply andb_true_iff in H. destruct H as [_ H].
  apply negb_true_iff in H. rewrite H. reflexivity.
Qed.

Lemma parse_value_object (fuel : nat) (s : string) :
  starts_token s = true ->
  parse_value (S fuel) (String "{" s) =
  match parse_members fuel s with
  | Some (ps, r) => Some (jbvObject ps, r)
  | None => None
  end.
Proof.
  intros H. cbn [parse_value skip_ws]. change (is_ws "{") with false. cbv iota.
  change (Ascii.eqb "{" "n") with false. change (Ascii.eqb "{" "t") with false.
  change (Ascii.eqb "{" "f") with false. change (Ascii.eqb "{" dquote) with false.
  change (Ascii.eqb "{" "[") with false. change (Ascii.eqb "{" "{") with true.
  cbv iota.
  rewrite (skip_ws_token s H). destruct s as [| c s]; [discriminate |].
  cbn [starts_token] in H. unfold token_head in H.
  apply andb_true_iff in H. destruct H as [_ H].
  apply negb_true_iff in H. rewrite H. reflexivity.
Qed.

Lemma parse_members_S (fuel : nat) (key s : string) :
  parse_members (S fuel) (escape_json key ++ String ":" s) =
  match parse_value fuel s with
  | Some (v, rest3) =>
      match skip_ws rest3 with
      | String c r =>
          if Ascii.eqb c "," then
            match parse_members fuel r with
            | Some (ps, r') => Some ((key, v) :: ps, r')
            | None => None
            end
          else if Ascii.eqb c "}" then Some ([(key, v)], r)
          else None
      | EmptyString => None
      end
  | None => None
  end.
Proof.
  rewrite escape_json_unfold. cbn [String.append]. rewrite append_assoc.
  cbn [String.append].
  cbn [parse_members skip_ws]. change (is_ws dquote) with false. cbv iota.
  rewrite Ascii.eqb_refl. rewrite parse_escape_json_chars.
  cbn [skip_ws]. change (is_ws ":") with false. cbv iota.
  change (Ascii.eqb ":" ":") with true. cbv iota. reflexivity.
Qed.

Lemma starts_token_join (x : string) (l : list string) :
  starts_token x = true -> starts_token (join_comma (x :: l)) = true.
Proof.
  intros H. destruct l as [| y l]; [exact H |].
  rewrite join_comma_cons. apply starts_token_append. exact H.
Qed.

(** The elements of a non-empty array, up to its closing bracket. *)
Lemma parse_elems_join (vs : list JsonbValue) :
  vs <> [] -> Forall reads_back vs ->
  forall fuel pre rest,
    all_ws pre = true ->
    (String.length (join_comma (map JsonbToCString vs)) < fuel)%nat ->
    parse_elems fuel (pre ++ join_comma (map JsonbToCString vs) ++ String "]" rest) =
    Some (vs, rest).
Proof.
  induction vs as [| v vs IH]; intros Hne Hall fuel pre rest Hpre Hfuel; [congruence |].
  inversion Hall as [| v' vs' Hv Hvs]; subst v' vs'.
  destruct fuel as [| fuel]; [lia |].
  rewrite parse_elems_S.
  destruct vs as [| v2 vs].
  - cbn [map join_comma] in *.
    rewrite (Hv fuel pre (String "]" rest) Hpre); [| lia | reflexivity].
    reflexivity.
  - cbn [map] in *. rewrite join_comma_cons in *.
    rewrite !length_append in Hfuel. cbn [String.length] in Hfuel.
    rewrite !append_assoc.
    rewrite (Hv fuel pre _ Hpre); [| lia | reflexivity].
    cbn [String.append skip_ws]. change (is_ws ",") with false. cbv iota.
    change (Ascii.eqb "," ",") with true. cbv iota.
    assert (Hrec := IH ltac:(discriminate) Hvs fuel " " rest eq_refl).
    cbn [map String.append] in Hrec. rewrite Hrec; [reflexivity | lia].
Qed.

(** The pairs of a non-empty object, up to its closing brace. *)
Lemma parse_members_join (ps : list (string * JsonbValue)) :
  ps <> [] -> Forall (fun kv => reads_back (snd kv)) ps ->
  forall fuel pre rest,
    all_ws pre = true ->
    (String.length (join_comma (map member_text ps)) < fuel)%nat ->
    parse_members fuel (pre ++ join_comma (map member_text ps) ++ String "}" rest) =
    Some (ps, rest).
Proof.
  induction ps as [| [k v] ps IH]; intros Hne Hall fuel pre rest Hpre Hfuel;
    [congruence |].
  inversion Hall as [| kv' ps' Hv Hps]; subst kv' ps'. cbn [snd] in Hv.
  rewrite (parse_members_ws fuel pre _ Hpre).
  destruct fuel as [| fuel]; [lia |].
  destruct ps as [| kv2 ps].
  - cbn [map join_comma] in *. unfold member_text in *. cbn [fst snd] in *.
    rewrite !length_append in Hfuel. cbn [String.length] in Hfuel.
    rewrite !append_assoc. cbn [String.append].
    rewrite parse_members_S.
    change (String " " (JsonbToCString v ++ String "}" rest))
      with (" " ++ JsonbToCString v ++ String "}" rest)%string.
    rewrite (Hv fuel " " (String "}" rest) eq_refl); [| lia | reflexivity].
    reflexivity.
  - cbn [map] in *. rewrite join_comma_cons in *.
    unfold member_text at 1. unfold member_text at 1 in Hfuel. cbn [fst snd] in *.
    rewrite !length_append in Hfuel. cbn [String.length] in Hfuel.
    rewrite !append_assoc. cbn [String.append].
    rewrite parse_members_S.
    match goal with
    | |- context [parse_value fuel (String " " (JsonbToCString v ++ ?r))] =>
        change (String " " (JsonbToCString v ++ r))
          with (" " ++ JsonbToCString v ++ r)%string;
        rewrite (Hv fuel " " r eq_refl); [| lia | reflexivity]
    end.
    cbn [skip_ws]. change (is_ws ",") with false. cbv iota.
    change (Ascii.eqb "," ",") with true. cbv iota.
    assert (Hrec := IH ltac:(discriminate) Hps fuel " " rest eq_refl).
    cbn [map String.append] in Hrec. rewrite Hrec; [reflexivity | lia].
Qed.

Lemma reads_back_all (v : JsonbValue) : reads_back v.
Proof.
  induction v as [| b | m d | s | l IHl | ps IHps] using JsonbValue_induction;
    intros fuel pre rest Hpre Hfuel Hend;
    rewrite (parse_value_ws fuel pre _ Hpre);
    (destruct fuel as [| fuel];
     [match type of Hfuel with
      | (String.length (JsonbToCString ?x) <= _)%nat =>
          pose proof (length_JsonbToCString_pos x) as Hpos; lia
      end |]).
  - reflexivity.
  - destruct b; reflexivity.
  - destruct (numeric_out_head m d) as [c [s [Hs Hc]]].
    cbn [JsonbToCString]. 
    assert (Hs' : (numeric_out m d ++ rest)%string = String c (s ++ rest))
      by (rewrite Hs; reflexivity).
    rewrite Hs'. rewrite (parse_value_number fuel c _ Hc). rewrite <- Hs'.
    apply parse_number_numeric_out. exact Hend.
  - cbn [JsonbToCString]. rewrite escape_json_unfold. cbn [String.append].
    rewrite append_assoc. cbn [String.append].
    cbn [parse_value skip_ws]. change (is_ws dquote) with false. cbv iota.
    change (Ascii.eqb dquote "n") with false. change (Ascii.eqb dquote "t") with false.
    change (Ascii.eqb dquote "f") with false. rewrite Ascii.eqb_refl. cbv iota.
    rewrite parse_escape_json_chars. reflexivity.
  - destruct l as [| v l]; [reflexivity |].
    rewrite JsonbToCString_array in *. cbn [String.append String.length] in *.
    rewrite length_append in Hfuel. cbn [String.length] in Hfuel.
    rewrite append_assoc. cbn [String.append].
    rewrite parse_value_array.
    + change (join_comma (map JsonbToCString (v :: l)) ++ String "]" rest)%string
        with ("" ++ join_comma (map JsonbToCString (v :: l)) ++ String "]" rest)%string.
      rewrite (parse_elems_join (v :: l) ltac:(discriminate) IHl fuel "" rest eq_refl);
        [reflexivity | lia].
    + apply starts_token_append. cbn [map]. apply starts_token_join.
      apply starts_token_JsonbToCString.
  - destruct ps as [| kv ps]; [reflexivity |].
    rewrite JsonbToCString_object in *. cbn [String.append String.length] in *.
    rewrite length_append in Hfuel. cbn [String.length] in Hfuel.
    rewrite append_assoc. cbn [String.append].
    rewrite parse_value_object.
    + change (join_comma (map member_text (kv :: ps)) ++ String "}" rest)%string
        with ("" ++ join_comma (map member_text (kv :: ps)) ++ String "}" rest)%string.
      rewrite (parse_members_join (kv :: ps) ltac:(discriminate) IHps fuel "" rest eq_refl);
        [reflexivity | lia].
    + apply starts_token_append. cbn [map]. apply starts_token_join. reflexivity.
Qed.

(** Decoding the text [JsonbToCString] writes gives the value back. *)
Lemma json_decode_JsonbToCString (v : JsonbValue) :
  json_decode (JsonbToCString v) = Some v.
Proof.
  unfold json_decode.
  pose proof (reads_back_all v (String.length (JsonbToCString v)) "" ""
                eq_refl (Nat.le_refl _) eq_refl) as H.
  cbn [String.append] in H. rewrite append_empty_r in H. rewrite H. reflexivity.
Qed.

(** ** [add_header] *)

Lemma wf_array_1d (a : ArrayType) (dim : Z) :
  wf_array a -> dims a = [dim] ->
  0 < dim /\ dim = Z.of_nat (List.length (elems a)) /\ exists lb, lbound a = [lb].
Proof.
  intros [Hlen [Hpos Hn]] Hd. rewrite Hd in *.
  inversion Hpos as [| d ds Hd0 _]; subst.
  simpl in Hn. split; [exact Hd0 |]. split; [lia |].
  destruct (lbound a) as [| lb [| lb2 lbs]]; simpl in Hlen; try discriminate.
  exists lb; reflexivity.
Qed.

Lemma nth_error_app_last {A : Type} (l : list A) (x : A) :
  nth_error (l ++ [x]) (List.length l) = Some x.
Proof.
  induction l as [| h t IH]; simpl; [reflexivity | exact IH].
Qed.

Lemma nth_error_app_front {A : Type} (l : list A) (x : A) (i : nat) :
  (i < List.length l)%nat -> nth_error (l ++ [x]) i = nth_error l i.
Proof.
  revert i. induction l as [| h t IH]; intros i Hi; simpl in Hi; [lia |].
  destruct i as [| i]; simpl; [reflexivity | apply IH; lia].
Qed.

Lemma add_header_indx_nonempty (a : ArrayType) (lb dim : Z) (lbs ds : list Z) :
  lbound a = lb :: lbs -> dims a = dim :: ds ->
  add_header_indx a =
  if fst (pg_add_s32_overflow lb dim) then Raise "integer out of range"
  else Return (snd (pg_add_s32_overflow lb dim)).
Proof.
  intros Hlb Hd. unfold add_header_indx. rewrite Hlb, Hd.
  unfold first_bound, bind.
  destruct (pg_add_s32_overflow lb dim) as [ov indx]. reflexivity.
Qed.

Lemma add_header_indx_in_range (a : ArrayType) (lb dim : Z) (lbs ds : list Z) :
  lbound a = lb :: lbs -> dims a = dim :: ds -> in_int32 (lb + dim) ->
  add_header_indx a = Return (lb + dim).
Proof.
  intros Hlb Hd Hr. rewrite (add_header_indx_nonempty a lb dim lbs ds Hlb Hd).
  rewrite (pg_add_s32_overflow_in_range _ _ Hr). reflexivity.
Qed.

Lemma add_header_indx_out_of_range (a : ArrayType) (lb dim : Z) (lbs ds : list Z) :
  lbound a = lb :: lbs -> dims a = dim :: ds -> ~ in_int32 (lb + dim) ->
  add_header_indx a = Raise "integer out of range".
Proof.
  intros Hlb Hd Hr. rewrite (add_header_indx_nonempty a lb dim lbs ds Hlb Hd).
  rewrite (pg_add_s32_overflow_out_of_range _ _ Hr). reflexivity.
Qed.

Lemma in_int32_dec (z : Z) : {in_int32 z} + {~ in_int32 z}.
Proof.
  unfold in_int32.
  destruct (Z_le_dec PG_INT32_MIN z); destruct (Z_le_dec z PG_INT32_MAX);
    first [left; lia | right; lia].
Qed.

(** On a stored non-empty array, a returning [add_header] has found a
    single dimension, an index inside int32, and has put the header behind
    the last element. *)
Lemma add_header_Return (a a' : ArrayType) (nm val : string) (app : bool) :
  wf_array a ->
  add_header (Some a) nm val app = Return a' ->
  exists dim lb,
    dims a = [dim] /\ lbound a = [lb] /\ in_int32 (lb + dim) /\
    add_header_indx a = Return (lb + dim) /\
    a' = mk_ArrayType [dim + 1] [lb] (elems a ++ [Some (heap_form_header nm val app)]).
Proof.
  intros Hwf H. unfold add_header in H. inv_bind H.
  unfold array_set_element in H.
  destruct (dims a) as [| dim [| dim2 ds]] eqn:Ed.
  - unfold add_header_indx in Hx.
    destruct (lbound a); rewrite Ed in Hx; discriminate.
  - destruct (wf_array_1d a dim Hwf Ed) as [Hpos [Hdim [lb Hlb]]].
    rewrite Hlb in H.
    destruct (in_int32_dec (lb + dim)) as [Hr | Hr].
    + rewrite (add_header_indx_in_range a lb dim [] [] Hlb Ed Hr) in Hx.
      injection Hx as Hx. subst x.
      exists dim, lb.
      split; [reflexivity |]. split; [exact Hlb |]. split; [exact Hr |].
      split; [exact (add_header_indx_in_range a lb dim [] [] Hlb Ed Hr) |].
      destruct (Z.ltb_spec (lb + dim) lb); [lia |].
      destruct (Z.leb_spec (dim + lb) (lb + dim)); [| lia].
      replace (lb + dim - (dim + lb) + 1) with 1 in H by lia.
      inv_bind H. injection H as H. subst a'. reflexivity.
    + rewrite (add_header_indx_out_of_range a lb dim [] [] Hlb Ed Hr) in Hx.
      discriminate.
  - destruct (lbound a) as [| lb0 [| lb1 lbs]]; discriminate.
Qed.

(** An array with room for one more element takes the header. *)
Lemma add_header_appendable (a : ArrayType) (nm val : string) (app : bool) :
  appendable a ->
  exists dim lb,
    dims a = [dim] /\ lbound a = [lb] /\
    add_header (Some a) nm val app =
    Return (mk_ArrayType [dim + 1] [lb] (elems a ++ [Some (heap_form_header nm val app)])).
Proof.
  intros [Hwf [dim [lb [Ed [Hlb [Hlbr [Hmax Hub]]]]]]].
  destruct (wf_array_1d a dim Hwf Ed) as [Hpos _].
  exists dim, lb. split; [exact Ed |]. split; [exact Hlb |].
  assert (Hr : in_int32 (lb + dim)).
  { unfold in_int32, PG_INT32_MIN, PG_INT32_MAX in *. lia. }
  unfold add_header.
  rewrite (add_header_indx_in_range a lb dim [] [] Hlb Ed Hr). cbn [bind].
  unfold array_set_element. rewrite Ed, Hlb.
  destruct (Z.ltb_spec (lb + dim) lb); [lia |].
  destruct (Z.leb_spec (dim + lb) (lb + dim)); [| lia].
  replace (lb + dim - (dim + lb) + 1) with 1 by lia.
  unfold check_array_limits.
  destruct (Z.ltb_spec MaxArraySize (dim + 1)); [lia |].
  assert (Hr2 : in_int32 (dim + 1 + lb)).
  { unfold in_int32, PG_INT32_MIN, PG_INT32_MAX in *. lia. }
  rewrite (pg_add_s32_overflow_in_range _ _ Hr2). reflexivity.
Qed.

(** ** [http_response] *)

Ltac oid_facts :=
  repeat match goal with
         | H : (_ =? _) = true |- _ => apply Z.eqb_eq in H
         | H : (_ =? _) = false |- _ => apply Z.eqb_neq in H
         end;
  unfold TEXTOID, VARCHAROID, CHAROID, BYTEAOID, JSONBOID, JSONOID in *.

(** What a returning call with a body has done, arm by arm. *)
Lemma http_response_Return (s : option Z) (h : option ArrayType) (oid : Oid)
    (d : Datum) (r : http_response_tuple) :
  http_response s h oid (Some d) = Return r ->
  exists val,
    inferred_content_type oid = Some val /\
    status r = match s with None => 200 | Some z => z end /\
    (has_content_type h = true -> headers r = h) /\
    (has_content_type h = false ->
     exists a', add_header h "content-type" val false = Return a' /\
                headers r = Some a') /\
    ((oid =? JSONBOID) = true ->
     exists jb, d = JsonbP jb /\ body r = Some (Varlena (JsonbToCString jb))) /\
    ((oid =? JSONBOID) = false -> body r = Some d).
Proof.
  unfold http_response, inferred_content_type. intros H.
  destruct ((oid =? TEXTOID) || (oid =? VARCHAROID) || (oid =? CHAROID)) eqn:Etxt;
    [| destruct (oid =? BYTEAOID) eqn:Ebytea;
       [| destruct (oid =? JSONBOID) eqn:Ejsonb;
          [| destruct (oid =? JSONOID) eqn:Ejson; [| discriminate]]]].
  - exists "text/plain; charset=utf-8". split; [reflexivity |].
    destruct (has_content_type h) eqn:Ect; cbn [bind] in H.
    + injection H as H; subst r; simpl.
      repeat split; try discriminate; try reflexivity.
      intros Hj. apply orb_true_iff in Etxt. destruct Etxt as [Etxt | Etxt];
        [apply orb_true_iff in Etxt; destruct Etxt as [Etxt | Etxt] |];
        oid_facts; lia.
    + inv_bind H. inv_bind Hx. injection Hx as Hx. injection H as H. subst r x; simpl.
      repeat split; try discriminate; try reflexivity.
      * intros _. exists x0. split; [exact Hx0 | reflexivity].
      * intros Hj. apply orb_true_iff in Etxt. destruct Etxt as [Etxt | Etxt];
          [apply orb_true_iff in Etxt; destruct Etxt as [Etxt | Etxt] |];
          oid_facts; lia.
  - exists "application/octet-stream". split; [reflexivity |].
    destruct (has_content_type h) eqn:Ect; cbn [bind] in H.
    + injection H as H; subst r; simpl.
      repeat split; try discriminate; try reflexivity.
      intros Hj. oid_facts; lia.
    + inv_bind H. inv_bind Hx. injection Hx as Hx. injection H as H. subst r x; simpl.
      repeat split; try discriminate; try reflexivity.
      * intros _. exists x0. split; [exact Hx0 | reflexivity].
      * intros Hj. oid_facts; lia.
  - exists "text/json". split; [reflexivity |].
    inv_bind H. destruct d as [z | bytes | jb]; try discriminate.
    injection Hx as Hx; subst x.
    destruct (has_content_type h) eqn:Ect; cbn [bind] in H.
    + injection H as H; subst r; simpl.
      repeat split; try discriminate; try reflexivity.
      intros _. exists jb. split; reflexivity.
    + inv_bind H. inv_bind Hx. injection Hx as Hx. injection H as H. subst r x; simpl.
      repeat split; try discriminate; try reflexivity.
      * intros _. exists x0. split; [exact Hx0 | reflexivity].
      * intros _. exists jb. split; reflexivity.
  - exists "text/json". split; [reflexivity |].
    destruct (has_content_type h) eqn:Ect; cbn [bind] in H.
    + injection H as H; subst r; simpl.
      repeat split; try discriminate; try reflexivity.
    + inv_bind H. inv_bind Hx. injection Hx as Hx. injection H as H. subst r x; simpl.
      repeat split; try discriminate; try reflexivity.
      intros _. exists x0. split; [exact Hx0 | reflexivity].
Qed.

(** A call with a body of a supported type, represented as its type says,
    returns as soon as the headers either carry a content type, are NULL,
    or have room for one more element. *)
Lemma http_response_returns (s : option Z) (h : option ArrayType) (oid : Oid)
    (d : Datum) :
  inferred_content_type oid <> None ->
  datum_has_type oid d = true ->
  has_content_type h = true \/ h = None \/ (exists a, h = Some a /\ appendable a) ->
  exists r, http_response s h oid (Some d) = Return r.
Proof.
  intros Hsup Hty Hh.
  assert (Hadd : forall val, has_content_type h = false ->
                             exists a', add_header h "content-type" val false = Return a').
  { intros val Hct. destruct Hh as [Hh | [Hh | [a [Hh Happ]]]].
    - congruence.
    - subst h. eexists; reflexivity.
    - subst h. destruct (add_header_appendable a "content-type" val false Happ)
        as [dim [lb [_ [_ Hr]]]]. eexists; exact Hr. }
  unfold http_response, inferred_content_type, datum_has_type in *.
  destruct ((oid =? TEXTOID) || (oid =? VARCHAROID) || (oid =? CHAROID)) eqn:Etxt;
    [| destruct (oid =? BYTEAOID) eqn:Ebytea;
       [| destruct (oid =? JSONBOID) eqn:Ejsonb;
          [| destruct (oid =? JSONOID) eqn:Ejson; [| simpl in Hsup; congruence]]]].
  - destruct (has_content_type h) eqn:Ect; [eexists; reflexivity |].
    destruct (Hadd "text/plain; charset=utf-8" eq_refl) as [a' Ha'].
    rewrite Ha'. eexists; reflexivity.
  - destruct (has_content_type h) eqn:Ect; [eexists; reflexivity |].
    destruct (Hadd "application/octet-stream" eq_refl) as [a' Ha'].
    rewrite Ha'. eexists; reflexivity.
  - destruct d as [z | bytes | jb]; try discriminate. cbn [DatumGetJsonbP bind].
    destruct (has_content_type h) eqn:Ect; [eexists; reflexivity |].
    destruct (Hadd "text/json" eq_refl) as [a' Ha'].
    rewrite Ha'. eexists; reflexivity.
  - destruct (has_content_type h) eqn:Ect; [eexists; reflexivity |].
    destruct (Hadd "text/json" eq_refl) as [a' Ha'].
    rewrite Ha'. eexists; reflexivity.
Qed.

(** C1: with a body of type text and a single header named [content], which
    is no [content-type] header, [http_response] returns the headers as
    they came: the result holds no [content-type] header at all, where the
    specification promises exactly one.  The name [content] compares equal
    because [strncasecmp] is bounded by the length of the header's name. *)
Theorem http_response_prefix_name_blocks_inference :
  existsb is_content_type_header (elems content_headers) = false /\
  strncasecmp "content" "content-type" (String.length "content") = 0 /\
  http_response None (Some content_headers) TEXTOID (Some (Varlena "hello")) =
  Return (mk_http_response 200 (Some content_headers) (Some (Varlena "hello"))) /\
  count_content_type (elems content_headers) = 0%nat.
Proof.
  repeat split; reflexivity.
Qed.

(** C5: when the supplied headers contain a header whose name is
    [content-type] up to case, the headers of the returned record are the
    supplied array itself; and the call does return whenever the body is
    NULL or of a supported type. *)
Theorem http_response_keeps_supplied_headers :
  forall (s : option Z) (a : ArrayType) (oid : Oid) (b : option Datum),
    existsb is_content_type_header (elems a) = true ->
    (forall r, http_response s (Some a) oid b = Return r -> headers r = Some a) /\
    (match b with
     | None => True
     | Some d => inferred_content_type oid <> None /\ datum_has_type oid d = true
     end -> exists r, http_response s (Some a) oid b = Return r).
Proof.
  intros s a oid b Hex.
  assert (Hct : has_content_type (Some a) = true)
    by (apply scan_finds_content_type; exact Hex).
  split.
  - intros r Hr. destruct b as [d |].
    + destruct (http_response_Return s (Some a) oid d r Hr) as [val [_ [_ [Hkeep _]]]].
      apply Hkeep. exact Hct.
    + simpl in Hr. injection Hr as Hr; subst r. reflexivity.
  - destruct b as [d |].
    + intros [Hsup Hty]. apply http_response_returns; auto.
    + intros _. eexists; reflexivity.
Qed.

Lemma http_response_keeps_supplied_headers_witness :
  exists r,
    http_response None (Some xml_headers) TEXTOID (Some (Varlena "<x/>")) = Return r /\
    headers r = Some xml_headers.
Proof.
  destruct (http_response_keeps_supplied_headers None xml_headers TEXTOID
              (Some (Varlena "<x/>")) eq_refl) as [Hkeep Hret].
  destruct Hret as [r Hr].
  - split; [discriminate | reflexivity].
  - exists r. split; [exact Hr | exact (Hkeep r Hr)].
Defined.

(** C6: when [http_response] infers a content type (the body is present
    and the scan found none), the headers of the returned record are the
    supplied sequence, every element unchanged and in its place, followed
    by one new last element [(content-type, inferred value, append = false)];
    a supplied array keeps its lower bound and grows by one.  The call
    returns whenever the supplied headers are NULL or have room for one
    more element. *)
Theorem http_response_appends_inferred_header :
  forall (s : option Z) (h : option ArrayType) (oid : Oid) (d : Datum),
    wf_headers h ->
    has_content_type h = false ->
    (forall r, http_response s h oid (Some d) = Return r ->
       exists val a',
         inferred_content_type oid = Some val /\
         headers r = Some a' /\
         elems a' =
           (header_elems h ++
            [Some (mk_http_header (Some "content-type") (Some val) (Some false))])%list /\
         match h with
         | None => dims a' = [1] /\ lbound a' = [1]
         | Some a =>
             exists dim lb, dims a = [dim] /\ lbound a = [lb] /\
                            dims a' = [dim + 1] /\ lbound a' = [lb]
         end) /\
    (inferred_content_type oid <> None -> datum_has_type oid d = true ->
     h = None \/ (exists a, h = Some a /\ appendable a) ->
     exists r, http_response s h oid (Some d) = Return r).
Proof.
  intros s h oid d Hwf Hct. split.
  - intros r Hr.
    destruct (http_response_Return s h oid d r Hr) as [val [Hval [_ [_ [Hadd _]]]]].
    destruct (Hadd Hct) as [a' [Ha' Hh]].
    exists val, a'. split; [exact Hval |]. split; [exact Hh |].
    destruct h as [a |].
    + destruct (add_header_Return a a' _ _ _ Hwf Ha')
        as [dim [lb [Ed [Hlb [_ [_ Heq]]]]]].
      subst a'. simpl. split; [reflexivity |].
      exists dim, lb. repeat split; assumption.
    + simpl in Ha'. injection Ha' as Ha'. subst a'. simpl.
      repeat split; reflexivity.
  - intros Hsup Hty Hh. apply http_response_returns; auto.
Qed.

Lemma http_response_appends_inferred_header_witness :
  exists r a',
    http_response (Some 201) (Some cache_headers) BYTEAOID (Some (Varlena "PNG")) = Return r /\
    headers r = Some a' /\
    elems a' =
      (elems cache_headers ++
       [Some (mk_http_header (Some "content-type") (Some "application/octet-stream")
                (Some false))])%list.
Proof.
  assert (Hwf : wf_headers (Some cache_headers)).
  { repeat split; [repeat constructor; reflexivity]. }
  destruct (http_response_appends_inferred_header (Some 201) (Some cache_headers)
              BYTEAOID (Varlena "PNG") Hwf eq_refl) as [Happ Hret].
  destruct Hret as [r Hr].
  - discriminate.
  - reflexivity.
  - right. exists cache_headers. split; [reflexivity |].
    split; [exact Hwf |]. exists 2, 1.
    unfold in_int32, PG_INT32_MIN, PG_INT32_MAX, MaxArraySize.
    repeat split; try reflexivity; lia.
  - destruct (Happ r Hr) as [val [a' [Hval [Hh [He _]]]]].
    exists r, a'. split; [exact Hr |]. split; [exact Hh |].
    injection Hval as Hval. subst val. exact He.
Defined.

(** C7: a call with a non-null body whose type is none of text, varchar,
    char, bytea, json and jsonb does not return a record: it leaves through
    the error of the [default] arm, whatever the status and the headers. *)
Theorem http_response_unsupported_body_type :
  forall (s : option Z) (h : option ArrayType) (oid : Oid) (d : Datum),
    oid <> TEXTOID -> oid <> VARCHAROID -> oid <> CHAROID ->
    oid <> BYTEAOID -> oid <> JSONOID -> oid <> JSONBOID ->
    http_response s h oid (Some d) = Raise "Can't (yet) cast %s to bytea".
Proof.
  intros s h oid d Ht Hv Hc Hb Hj Hjb. unfold http_response.
  apply Z.eqb_neq in Ht, Hv, Hc, Hb, Hj, Hjb.
  rewrite Ht, Hv, Hc, Hb, Hj, Hjb. reflexivity.
Qed.

Lemma http_response_unsupported_body_type_witness :
  http_response None None 23 (Some (ByVal 7)) = Raise "Can't (yet) cast %s to bytea".
Proof.
  apply http_response_unsupported_body_type; discriminate.
Defined.

(** C8: in the record a call returns, the headers field is NULL exactly
    when both the headers argument and the body argument are NULL; and NULL
    headers never come back as an empty array: they come back NULL or as
    the one-element array holding the inferred header. *)
Theorem http_response_headers_null_iff :
  forall (s : option Z) (h : option ArrayType) (oid : Oid) (b : option Datum)
         (r : http_response_tuple),
    http_response s h oid b = Return r ->
    (headers r = None <-> h = None /\ b = None) /\
    (h = None ->
     forall a', headers r = Some a' ->
       exists hdr, elems a' = [Some hdr] /\ dims a' = [1] /\ lbound a' = [1]).
Proof.
  intros s h oid b r Hr. destruct b as [d |].
  - destruct (http_response_Return s h oid d r Hr) as [val [_ [_ [Hkeep [Hadd _]]]]].
    destruct (has_content_type h) eqn:Ect.
    + specialize (Hkeep eq_refl). destruct h as [a |]; [| discriminate].
      split.
      * split; [intros Hn; congruence | intros [Hn _]; discriminate].
      * intros Hn; discriminate.
    + destruct (Hadd eq_refl) as [a' [Ha' Hh]]. split.
      * split; [intros Hn; congruence | intros [_ Hn]; discriminate].
      * intros Hn a'' Ha''. subst h. simpl in Ha'.
        injection Ha' as Ha'. rewrite Hh in Ha''. injection Ha'' as Ha''.
        subst a' a''. eexists. repeat split.
  - simpl in Hr. injection Hr as Hr. subst r. simpl. split.
    + split; [intros Hn; split; [exact Hn | reflexivity] | intros [Hn _]; exact Hn].
    + intros Hn a' Ha'. congruence.
Qed.

Lemma http_response_headers_null_iff_witness :
  let r := mk_http_response 200
             (Some (mk_ArrayType [1] [1]
                      [Some (mk_http_header (Some "content-type")
                               (Some "text/plain; charset=utf-8") (Some false))]))
             (Some (Varlena "hello")) in
  (headers r = None <-> @None ArrayType = None /\ Some (Varlena "hello") = None) /\
  (@None ArrayType = None ->
   forall a', headers r = Some a' ->
     exists hdr, elems a' = [Some hdr] /\ dims a' = [1] /\ lbound a' = [1]).
Proof.
  apply (http_response_headers_null_iff None None TEXTOID (Some (Varlena "hello"))).
  reflexivity.
Defined.

(** C10: on an array that has at least one dimension, [add_header]
    computes its subscript as [lb[0] + dimv[0]] under the int32 overflow
    check: a sum inside int32 is the subscript, unwrapped; a sum outside
    int32 ends the call with [integer out of range]; and a call that returns
    on a stored array has written the header at exactly [lb[0] + dimv[0]],
    one past the last element, leaving every other element in place. *)
Theorem add_header_indx_checked :
  forall (eah : ArrayType) (lb dimv0 : Z) (lbs dimvs : list Z)
         (nm val : string) (app : bool),
    lbound eah = lb :: lbs ->
    dims eah = dimv0 :: dimvs ->
    (in_int32 (lb + dimv0) -> add_header_indx eah = Return (lb + dimv0)) /\
    (~ in_int32 (lb + dimv0) ->
     add_header (Some eah) nm val app = Raise "integer out of range") /\
    (wf_array eah ->
     forall a', add_header (Some eah) nm val app = Return a' ->
       in_int32 (lb + dimv0) /\
       array_get_element a' (lb + dimv0) = Some (Some (heap_form_header nm val app)) /\
       forall i, lb <= i < lb + dimv0 ->
                 array_get_element a' i = array_get_element eah i).
Proof.
  intros eah lb dimv0 lbs dimvs nm val app Hlb Hd.
  split; [| split].
  - apply (add_header_indx_in_range eah lb dimv0 lbs dimvs Hlb Hd).
  - intros Hr. unfold add_header.
    rewrite (add_header_indx_out_of_range eah lb dimv0 lbs dimvs Hlb Hd Hr).
    reflexivity.
  - intros Hwf a' Ha'.
    destruct (add_header_Return eah a' nm val app Hwf Ha')
      as [dim [lb' [Ed [Hlb' [Hr [_ Heq]]]]]].
    rewrite Hd in Ed. rewrite Hlb in Hlb'.
    injection Ed as Ed1 Ed2. injection Hlb' as Hl1 Hl2. subst dim lb' dimvs lbs.
    destruct (wf_array_1d eah dimv0 Hwf Hd) as [Hpos [Hlen _]].
    split; [exact Hr |]. subst a'. unfold array_get_element. simpl. rewrite Hlb.
    split.
    + destruct (Z.ltb_spec (lb + dimv0) lb); [lia |].
      replace (Z.to_nat (lb + dimv0 - lb)) with (List.length (elems eah)) by lia.
      apply nth_error_app_last.
    + intros i Hi. destruct (Z.ltb_spec i lb); [lia |].
      apply nth_error_app_front. lia.
Qed.

Lemma add_header_indx_checked_witness :
  add_header_indx cache_headers = Return 3 /\
  array_get_element
    (mk_ArrayType [3] [1]
       (elems cache_headers ++ [Some (heap_form_header "content-type" "text/json" false)]))
    3 = Some (Some (heap_form_header "content-type" "text/json" false)).
Proof.
  destruct (add_header_indx_checked cache_headers 1 2 [] [] "content-type" "text/json"
              false eq_refl eq_refl) as [Hin [_ Hret]].
  split.
  - apply Hin. unfold in_int32, PG_INT32_MIN, PG_INT32_MAX. lia.
  - apply Hret.
    + repeat split; [repeat constructor; reflexivity].
    + reflexivity.
Defined.

(** The guard at work: an array whose last subscript is the largest int32. *)
Example add_header_at_int32_max :
  add_header (Some (mk_ArrayType [1] [2147483647]
                      [Some (heap_form_header "x-a" "1" false)]))
    "content-type" "text/json" false = Raise "integer out of range".
Proof. reflexivity. Qed.

(** C2, as the code has it: for a jsonb body the returned body is the text
    [JsonbToCString] writes for the value, and decoding it gives the value
    back; for a json body the returned body is the argument's own text,
    unchanged and not re-encoded, so it decodes to what the argument
    decodes to.  Both calls return whenever the headers carry a content
    type, are NULL, or have room for one more element. *)
Theorem http_response_json_body :
  forall (s : option Z) (h : option ArrayType),
    (forall jb r,
        http_response s h JSONBOID (Some (JsonbP jb)) = Return r ->
        body r = Some (Varlena (JsonbToCString jb)) /\
        decode_body (body r) = Some jb) /\
    (forall text r,
        http_response s h JSONOID (Some (Varlena text)) = Return r ->
        body r = Some (Varlena text) /\
        decode_body (body r) = json_decode text) /\
    (has_content_type h = true \/ h = None \/ (exists a, h = Some a /\ appendable a) ->
     forall jb text,
       (exists r, http_response s h JSONBOID (Some (JsonbP jb)) = Return r) /\
       (exists r, http_response s h JSONOID (Some (Varlena text)) = Return r)).
Proof.
  intros s h. split; [| split].
  - intros jb r Hr.
    destruct (http_response_Return s h JSONBOID (JsonbP jb) r Hr)
      as [val [_ [_ [_ [_ [Hjb _]]]]]].
    destruct (Hjb eq_refl) as [jb' [Hd Hb]]. injection Hd as Hd. subst jb'.
    split; [exact Hb |]. rewrite Hb. cbn [decode_body].
    apply json_decode_JsonbToCString.
  - intros text r Hr.
    destruct (http_response_Return s h JSONOID (Varlena text) r Hr)
      as [val [_ [_ [_ [_ [_ Hb]]]]]].
    specialize (Hb eq_refl). split; [exact Hb |]. rewrite Hb. reflexivity.
  - intros Hh jb text. split; apply http_response_returns; auto; discriminate.
Qed.

(** C2, as the specification states it, fails for the json type: the body
    [json_a1] comes back as it went in, although re-encoding the value it
    writes gives the different text [json_a1_canonical]. *)
Lemma http_response_json_body_not_reencoded :
  http_response None None JSONOID (Some (Varlena json_a1)) =
  Return (mk_http_response 200
            (Some (mk_ArrayType [1] [1]
                     [Some (mk_http_header (Some "content-type") (Some "text/json")
                              (Some false))]))
            (Some (Varlena json_a1))) /\
  canonical_json_text json_a1 = Some json_a1_canonical /\
  String.eqb json_a1 json_a1_canonical = false.
Proof.
  repeat split; reflexivity.
Qed.

(** ** [reload_configuration] *)

Lemma notification_eqb_eq (a b : string * string) :
  notification_eqb a b = true -> a = b.
Proof.
  destruct a as [a1 a2], b as [b1 b2]. unfold notification_eqb. simpl.
  intros H. apply andb_true_iff in H. destruct H as [H1 H2].
  apply String.eqb_eq in H1. apply String.eqb_eq in H2. subst. reflexivity.
Qed.

Lemma existsb_notification_In (n : string * string) (l : list (string * string)) :
  existsb (notification_eqb n) l = true -> In n l.
Proof.
  intros H. apply existsb_exists in H. destruct H as [m [Hin Heq]].
  apply notification_eqb_eq in Heq. subst m. exact Hin.
Qed.

(** C3, as the code has it: every invocation leaves a notification with an
    empty payload pending on the fixed channel, keeps what was pending,
    and does not touch the shared reload semaphore; it returns the new
    tuple when called as a trigger and [true] otherwise. *)
Theorem reload_configuration_notifies :
  forall (fcinfo : call_context) (st : backend_state),
  exists d st',
    reload_configuration fcinfo st = Return (d, st') /\
    In (OMNI_HTTPD_CONFIGURATION_NOTIFY_CHANNEL, "") (pendingNotifies st') /\
    (forall n, In n (pendingNotifies st) -> In n (pendingNotifies st')) /\
    configuration_reload_semaphore st' = configuration_reload_semaphore st /\
    d = match fcinfo with
        | AsTrigger trigger_data => PointerGetDatum (tg_newtuple trigger_data)
        | AsFunction => BoolGetDatum true
        end.
Proof.
  intros fcinfo st. unfold reload_configuration, Async_Notify.
  change (Nat.eqb (String.length OMNI_HTTPD_CONFIGURATION_NOTIFY_CHANNEL) 0) with false.
  change (Nat.leb NAMEDATALEN (String.length OMNI_HTTPD_CONFIGURATION_NOTIFY_CHANNEL))
    with false.
  cbv iota.
  destruct (existsb (notification_eqb (OMNI_HTTPD_CONFIGURATION_NOTIFY_CHANNEL, ""))
              (pendingNotifies st)) eqn:Ex; cbn [bind].
  - apply existsb_notification_In in Ex.
    destruct fcinfo; eexists; eexists; (split; [reflexivity |]); simpl;
      repeat split; auto.
  - destruct fcinfo; eexists; eexists; (split; [reflexivity |]); simpl;
      repeat split; auto using in_or_app, in_eq.
Qed.

(** C3, as the specification states it, fails: called on the freshly
    initialised semaphore the function returns with the semaphore still at
    zero, not at the value a fetch-add of 1 leaves. *)
Lemma reload_configuration_semaphore_untouched :
  reload_configuration AsFunction (mk_backend_state [] init_semaphore) =
  Return (BoolGetDatum true,
          mk_backend_state [(OMNI_HTTPD_CONFIGURATION_NOTIFY_CHANNEL, "")] init_semaphore) /\
  fetch_add_1 init_semaphore = 1 /\
  init_semaphore = 0.
Proof.
  repeat split; reflexivity.
Qed.

(** ** [handlers_query_validity_trigger] *)

Section HandlerValidatorProperties.

Variable RawStmt : Type.
Variable omni_sql_parse_statement : string -> string + list RawStmt.
Variable omni_sql_add_cte :
  list RawStmt -> string -> list RawStmt -> bool -> bool -> string + list RawStmt.
Variable omni_sql_is_valid : list RawStmt -> bool * string.

(** The row in [tg_trigtuple] decides: when its query column holds the text
    [sql], the validator returns (handing back that row unmodified) if and
    only if [sql] parses as exactly one statement and that statement
    resolves after the [request] CTE is put in front; in every other case
    it raises an error. *)
Theorem handlers_query_validity_trigger_accepts_iff :
  forall (id_column : option Datum) (sql : string) (rest : HeapTuple)
         (new : option HeapTuple),
    let trigger_data := mk_TriggerData (id_column :: Some (Varlena sql) :: rest) new in
    let called :=
      handlers_query_validity_trigger RawStmt omni_sql_parse_statement
        omni_sql_add_cte omni_sql_is_valid (AsTrigger trigger_data) in
    let accepted :=
      parses_as_one_and_resolves RawStmt omni_sql_parse_statement
        omni_sql_add_cte omni_sql_is_valid sql in
    (called = Return (PointerGetDatum (Some (tg_trigtuple trigger_data))) <-> accepted) /\
    (forall r, called = Return r ->
               r = PointerGetDatum (Some (tg_trigtuple trigger_data))) /\
    (~ accepted -> exists msg, called = Raise msg).
Proof.
  intros id_column sql rest new trigger_data called accepted.
  unfold called, accepted, handlers_query_validity_trigger, parses_as_one_and_resolves.
  cbn [tg_trigtuple trigger_data SPI_getbinval nth_error text_to_cstring bind].
  destruct (omni_sql_parse_statement sql) as [e | stmts] eqn:Eparse; cbn [pg_call bind].
  { split; [split; [discriminate |] | split; [discriminate |]].
    - intros [stmt [cte [stmts' [err [H _]]]]]. discriminate.
    - intros _. exists e. reflexivity. }
  destruct stmts as [| stmt [| stmt2 more]]; cbn [List.length Nat.eqb negb].
  { split; [split; [discriminate |] | split; [discriminate |]].
    - intros [stmt [cte [stmts' [err [H _]]]]]. discriminate.
    - intros _. eexists. reflexivity. }
  2: { split; [split; [discriminate |] | split; [discriminate |]].
    - intros [stmt' [cte [stmts' [err [H _]]]]]. discriminate.
    - intros _. eexists. reflexivity. }
  destruct (omni_sql_parse_statement request_cte_sql) as [e | cte] eqn:Ecte;
    cbn [pg_call bind].
  { split; [split; [discriminate |] | split; [discriminate |]].
    - intros [stmt' [cte [stmts' [err [_ [H _]]]]]]. discriminate.
    - intros _. exists e. reflexivity. }
  destruct (omni_sql_add_cte [stmt] "request" cte false true) as [e | stmts'] eqn:Eadd;
    cbn [pg_call bind].
  { split; [split; [discriminate |] | split; [discriminate |]].
    - intros [stmt' [cte' [stmts' [err [H1 [H2 [H3 _]]]]]]].
      injection H1 as H1. injection H2 as H2. subst stmt' cte'.
      rewrite Eadd in H3. discriminate.
    - intros _. exists e. reflexivity. }
  destruct (omni_sql_is_valid stmts') as [valid err] eqn:Evalid.
  destruct valid; cbn [negb].
  - split; [split | split].
    + intros _. exists stmt, cte, stmts', err. repeat split; assumption.
    + intros _. reflexivity.
    + intros r Hr. injection Hr as Hr. symmetry. exact Hr.
    + intros Hn. exfalso. apply Hn. exists stmt, cte, stmts', err.
      repeat split; assumption.
  - split; [split; [discriminate |] | split; [discriminate |]].
    + intros [stmt' [cte' [stmts'' [err' [H1 [H2 [H3 H4]]]]]]].
      injection H1 as H1. injection H2 as H2. subst stmt' cte'.
      rewrite Eadd in H3. injection H3 as H3. subst stmts''.
      rewrite Evalid in H4. discriminate.
    + intros _. eexists. reflexivity.
Qed.

(** When the query column of the row in [tg_trigtuple] is NULL, the
    validator raises [query can't be null]; nothing is parsed and the row
    is not handed back. *)
Theorem handlers_query_validity_trigger_null_query :
  forall (id_column : option Datum) (rest : HeapTuple) (new : option HeapTuple),
    handlers_query_validity_trigger RawStmt omni_sql_parse_statement omni_sql_add_cte
      omni_sql_is_valid (AsTrigger (mk_TriggerData (id_column :: None :: rest) new)) =
    Raise "query can't be null".
Proof.
  intros id_column rest new. reflexivity.
Qed.

(** A row whose query is accepted is handed back, whatever [tg_newtuple]
    holds. *)
Lemma handlers_query_validity_trigger_returns_row
    (id_column : option Datum) (sql : string) (rest : HeapTuple)
    (new : option HeapTuple) :
  parses_as_one_and_resolves RawStmt omni_sql_parse_statement omni_sql_add_cte
    omni_sql_is_valid sql ->
  handlers_query_validity_trigger RawStmt omni_sql_parse_statement omni_sql_add_cte
    omni_sql_is_valid
    (AsTrigger (mk_TriggerData (id_column :: Some (Varlena sql) :: rest) new)) =
  Return (PointerGetDatum (Some (id_column :: Some (Varlena sql) :: rest))).
Proof.
  intros [stmt [cte [stmts' [err [Hparse [Hcte [Hadd Hvalid]]]]]]].
  unfold handlers_query_validity_trigger.
  cbn [tg_trigtuple SPI_getbinval nth_error text_to_cstring bind].
  rewrite Hparse. cbn [pg_call bind List.length Nat.eqb negb].
  rewrite Hcte. cbn [pg_call bind]. rewrite Hadd. cbn [pg_call bind].
  rewrite Hvalid. reflexivity.
Qed.

(** C4: the candidate of an UPDATE is not what the validator checks.  With
    the stored row in [tg_trigtuple] and the row to be written in
    [tg_newtuple], the validator reads the query of the stored row: when
    that one is acceptable the call returns without error, whatever text
    the candidate holds, be it several statements or none that parses. *)
Theorem handlers_query_validity_trigger_update_unchecked :
  forall (id_old id_new : option Datum) (sql_old sql_new : string)
         (rest_old rest_new : HeapTuple),
    let old_row := id_old :: Some (Varlena sql_old) :: rest_old in
    let new_row := id_new :: Some (Varlena sql_new) :: rest_new in
    let trigger_data := mk_TriggerData old_row (Some new_row) in
    parses_as_one_and_resolves RawStmt omni_sql_parse_statement omni_sql_add_cte
      omni_sql_is_valid sql_old ->
    SPI_getbinval (candidate_row trigger_data) 2 = (Varlena sql_new, false) /\
    handlers_query_validity_trigger RawStmt omni_sql_parse_statement omni_sql_add_cte
      omni_sql_is_valid (AsTrigger trigger_data) =
    Return (PointerGetDatum (Some old_row)).
Proof.
  intros id_old id_new sql_old sql_new rest_old rest_new old_row new_row trigger_data Hold.
  split; [reflexivity |].
  apply handlers_query_validity_trigger_returns_row. exact Hold.
Qed.

(** C9: a NULL query can be installed by an UPDATE.  With an acceptable
    query in the stored row and a NULL query in the row to be written, the
    validator returns without error: it raises [query can't be null] for
    the row in [tg_trigtuple] only. *)
Theorem handlers_query_validity_trigger_update_to_null :
  forall (id_old id_new : option Datum) (sql_old : string)
         (rest_old rest_new : HeapTuple),
    let old_row := id_old :: Some (Varlena sql_old) :: rest_old in
    let new_row := id_new :: None :: rest_new in
    let trigger_data := mk_TriggerData old_row (Some new_row) in
    parses_as_one_and_resolves RawStmt omni_sql_parse_statement omni_sql_add_cte
      omni_sql_is_valid sql_old ->
    snd (SPI_getbinval (candidate_row trigger_data) 2) = true /\
    handlers_query_validity_trigger RawStmt omni_sql_parse_statement omni_sql_add_cte
      omni_sql_is_valid (AsTrigger trigger_data) =
    Return (PointerGetDatum (Some old_row)).
Proof.
  intros id_old id_new sql_old rest_old rest_new old_row new_row trigger_data Hold.
  split; [reflexivity |].
  apply handlers_query_validity_trigger_returns_row. exact Hold.
Qed.

End HandlerValidatorProperties.

(** The two statements above at work, with a parser that takes [SELECT 1]
    for one statement and any other text for two, a CTE step that leaves the
    statements alone and a resolution that always succeeds: the UPDATE goes
    through, while the same candidate is refused when it comes as an
    INSERT. *)
Lemma handlers_query_validity_trigger_update_unchecked_witness :
  let parse := fun sql : string =>
                 if String.eqb sql "SELECT 1" then @inr string (list unit) [tt]
                 else inr [tt; tt] in
  let add_cte := fun (stmts : list unit) (_ : string) (_ : list unit) (_ _ : bool) =>
                   @inr string (list unit) stmts in
  let is_valid := fun _ : list unit => (true, "") in
  let old_row := [Some (ByVal 1); Some (Varlena "SELECT 1")] in
  let new_row := [Some (ByVal 1); Some (Varlena "SELECT 1; SELECT 2;")] in
  handlers_query_validity_trigger unit parse add_cte is_valid
    (AsTrigger (mk_TriggerData old_row (Some new_row))) =
  Return (PointerGetDatum (Some old_row)) /\
  handlers_query_validity_trigger unit parse add_cte is_valid
    (AsTrigger (mk_TriggerData new_row None)) =
  Raise "query can only contain one statement".
Proof.
  intros parse add_cte is_valid old_row new_row. split; [| reflexivity].
  refine (proj2 (handlers_query_validity_trigger_update_unchecked unit parse add_cte
                   is_valid (Some (ByVal 1)) (Some (ByVal 1)) "SELECT 1"
                   "SELECT 1; SELECT 2;" [] [] _)).
  exists tt, [tt; tt], [tt], "". repeat split.
Defined.

Lemma handlers_query_validity_trigger_update_to_null_witness :
  let parse := fun sql : string =>
                 if String.eqb sql "SELECT 1" then @inr string (list unit) [tt]
                 else inr [tt; tt] in
  let add_cte := fun (stmts : list unit) (_ : string) (_ : list unit) (_ _ : bool) =>
                   @inr string (list unit) stmts in
  let is_valid := fun _ : list unit => (true, "") in
  let old_row := [Some (ByVal 1); Some (Varlena "SELECT 1")] in
  let new_row := [Some (ByVal 1); None] in
  handlers_query_validity_trigger unit parse add_cte is_valid
    (AsTrigger (mk_TriggerData old_row (Some new_row))) =
  Return (PointerGetDatum (Some old_row)) /\
  handlers_query_validity_trigger unit parse add_cte is_valid
    (AsTrigger (mk_TriggerData new_row None)) =
  Raise "query can't be null".
Proof.
  intros parse add_cte is_valid old_row new_row. split; [| reflexivity].
  refine (proj2 (handlers_query_validity_trigger_update_to_null unit parse add_cte
                   is_valid (Some (ByVal 1)) (Some (ByVal 1)) "SELECT 1" [] [] _)).
  exists tt, [tt; tt], [tt], "". repeat split.
Defined.

(* ------------------------------------------------------------------ *)
(** * Further properties *)

(** ** The scan for an explicit content type *)

Lemma tolower_NUL_iff (c : ascii) : tolower c = NUL <-> c = NUL.
Proof.
  destruct c as [b0 b1 b2 b3 b4 b5 b6 b7].
  destruct b0, b1, b2, b3, b4, b5, b6, b7; split; intros H;
    first [reflexivity | discriminate H].
Qed.

Lemma tolower_idempotent (c : ascii) : tolower (tolower c) = tolower c.
Proof.
  destruct c as [b0 b1 b2 b3 b4 b5 b6 b7].
  destruct b0, b1, b2, b3, b4, b5, b6, b7; reflexivity.
Qed.

Lemma N_of_ascii_diff (a b : ascii) :
  a <> b -> Z.of_N (N_of_ascii a) - Z.of_N (N_of_ascii b) <> 0.
Proof.
  intros Hab H. apply Hab.
  rewrite <- (ascii_N_embedding a), <- (ascii_N_embedding b).
  f_equal. lia.
Qed.

(** Over the length of a name without NUL, [strncasecmp] reports equality
    exactly when the lowered name is an initial part of the lowered other
    string. *)
Lemma strncasecmp_zero_iff_prefix (s1 : string) :
  NUL_free s1 = true ->
  forall s2,
    strncasecmp s1 s2 (String.length s1) = 0 <->
    String.prefix (lowercase s1) (lowercase s2) = true.
Proof.
  induction s1 as [| c1 t1 IH]; intros Hfree s2.
  - destruct s2; split; reflexivity.
  - cbn [NUL_free] in Hfree. apply andb_true_iff in Hfree.
    destruct Hfree as [Hc1 Ht1]. apply negb_true_iff in Hc1.
    apply Ascii.eqb_neq in Hc1.
    assert (Hl1 : tolower c1 <> NUL)
      by (intros E; apply Hc1; exact (proj1 (tolower_NUL_iff c1) E)).
    cbn [String.length strncasecmp peek advance lowercase].
    destruct s2 as [| c2 t2]; cbn [peek advance lowercase String.prefix].
    + change (tolower NUL) with NUL.
      destruct (Ascii.eqb_spec (tolower c1) NUL) as [E | E]; [contradiction |].
      cbn [negb]. split; [| discriminate].
      intros H. exfalso. revert H. apply N_of_ascii_diff. exact E.
    + destruct (Ascii.eqb_spec (tolower c1) (tolower c2)) as [E | E]; cbn [negb].
      * destruct (Ascii.eqb_spec (tolower c1) NUL) as [E0 | E0]; [contradiction |].
        destruct (ascii_dec (tolower c1) (tolower c2)) as [_ | Hn]; [| contradiction].
        apply IH. exact Ht1.
      * destruct (ascii_dec (tolower c1) (tolower c2)) as [Hy | _]; [contradiction |].
        split; [| discriminate].
        intros H. exfalso. revert H. apply N_of_ascii_diff. exact E.
Qed.

(** The precise test of the scan: on headers whose names hold no NUL, an
    explicit content type is found exactly when some non-null element has a
    non-null name that, lowered, is an initial part of [content-type]; the
    whole name need not be there. *)
Theorem scan_content_type_is_prefix_test :
  forall (items : list (option http_header)),
    names_NUL_free items = true ->
    scan_content_type items = existsb element_matches items.
Proof.
  induction items as [| [tuple |] rest IH]; intros Hfree.
  - reflexivity.
  - cbn [names_NUL_free forallb] in Hfree. apply andb_true_iff in Hfree.
    destruct Hfree as [Hn Hrest]. fold (names_NUL_free rest) in Hrest.
    cbn [scan_content_type existsb element_matches].
    destruct (name tuple) as [n |].
    + unfold name_matches.
      pose proof (strncasecmp_zero_iff_prefix n Hn "content-type") as Hiff.
      change (lowercase "content-type") with "content-type" in Hiff.
      destruct (String.prefix (lowercase n) "content-type") eqn:Ep.
      * rewrite (proj2 Hiff eq_refl). reflexivity.
      * destruct (Z.eqb_spec (strncasecmp n "content-type" (String.length n)) 0)
          as [E | E].
        -- apply Hiff in E. discriminate.
        -- cbn [orb]. apply IH. exact Hrest.
    + cbn [orb]. apply IH. exact Hrest.
  - cbn [names_NUL_free forallb] in Hfree. cbn [scan_content_type existsb element_matches orb].
    apply IH. exact Hfree.
Qed.

Lemma scan_content_type_is_prefix_test_witness :
  scan_content_type (elems content_headers) = true /\
  scan_content_type (elems cache_headers) = false.
Proof.
  split.
  - rewrite (scan_content_type_is_prefix_test (elems content_headers) eq_refl).
    reflexivity.
  - rewrite (scan_content_type_is_prefix_test (elems cache_headers) eq_refl).
    reflexivity.
Defined.

Lemma length_lowercase (s : string) : String.length (lowercase s) = String.length s.
Proof.
  induction s as [| c s IH]; simpl; [reflexivity | rewrite IH; reflexivity].
Qed.

Lemma strncasecmp_lowercase_left (n : nat) :
  forall a s, strncasecmp (lowercase a) s n = strncasecmp a s n.
Proof.
  induction n as [| n IH]; intros a s; [reflexivity |].
  cbn [strncasecmp].
  assert (Hp : tolower (peek (lowercase a)) = tolower (peek a)).
  { destruct a as [| c a]; [reflexivity |]. cbn [lowercase peek].
    apply tolower_idempotent. }
  assert (Ha : advance (lowercase a) = lowercase (advance a)).
  { destruct a as [| c a]; reflexivity. }
  rewrite Hp, Ha, IH. reflexivity.
Qed.

(** The scan ignores the case of letters: two header sequences that differ
    only in the case of their names give the same answer. *)
Theorem scan_content_type_ignores_case :
  forall (items1 items2 : list (option http_header)),
    Forall2 same_name_up_to_case items1 items2 ->
    scan_content_type items1 = scan_content_type items2.
Proof.
  intros items1 items2 H. induction H as [| x y l1 l2 Hxy Hrest IH]; [reflexivity |].
  destruct x as [t1 |], y as [t2 |]; cbn [same_name_up_to_case] in Hxy;
    try contradiction; cbn [scan_content_type]; [| exact IH].
  destruct (name t1) as [n1 |], (name t2) as [n2 |]; try contradiction; [| exact IH].
  assert (Hcmp : strncasecmp n1 "content-type" (String.length n1) =
                 strncasecmp n2 "content-type" (String.length n2)).
  { rewrite <- (strncasecmp_lowercase_left (String.length n1) n1).
    rewrite <- (strncasecmp_lowercase_left (String.length n2) n2).
    rewrite <- (length_lowercase n1), <- (length_lowercase n2), Hxy. reflexivity. }
  rewrite Hcmp, IH. reflexivity.
Qed.

Lemma scan_content_type_ignores_case_witness :
  scan_content_type (elems xml_headers) =
  scan_content_type
    [Some (mk_http_header (Some "CONTENT-TYPE") (Some "text/html") (Some true))].
Proof.
  apply scan_content_type_ignores_case.
  repeat constructor.
Defined.

(** ** [add_header]: the invariant and successive calls *)

(** The array [add_header] returns is again a stored array, whatever it was
    given: one dimension, as many elements as the dimension says, the
    supplied elements first and the new header last. *)
Theorem add_header_keeps_wf :
  forall (h : option ArrayType) (nm val : string) (app : bool) (a' : ArrayType),
    wf_headers h ->
    add_header h nm val app = Return a' ->
    wf_array a' /\
    elems a' = (header_elems h ++ [Some (heap_form_header nm val app)])%list /\
    exists dim lb, dims a' = [dim] /\ lbound a' = [lb] /\
                   dim = Z.of_nat (List.length (header_elems h)) + 1.
Proof.
  intros h nm val app a' Hwf Ha. destruct h as [a |].
  - destruct (add_header_Return a a' nm val app Hwf Ha)
      as [dim [lb [Ed [Hlb [_ [_ Heq]]]]]].
    destruct (wf_array_1d a dim Hwf Ed) as [Hpos [Hlen _]].
    subst a'. cbn [elems dims lbound header_elems]. split; [| split].
    + unfold wf_array. cbn [dims lbound elems ArrayGetNItems fold_right List.length].
      split; [reflexivity |]. split; [repeat constructor; lia |].
      rewrite length_app. cbn [List.length]. lia.
    + reflexivity.
    + exists (dim + 1), lb. repeat split. lia.
  - cbn [add_header] in Ha. injection Ha as Ha. subst a'.
    cbn [construct_md_array elems dims lbound header_elems]. split; [| split].
    + unfold wf_array. cbn. split; [reflexivity |].
      split; [repeat constructor | reflexivity].
    + reflexivity.
    + exists 1, 1. repeat split.
Qed.

Lemma add_header_keeps_wf_witness :
  exists a',
    add_header (Some cache_headers) "vary" "accept" true = Return a' /\ wf_array a'.
Proof.
  exists (mk_ArrayType [3] [1]
            (elems cache_headers ++ [Some (heap_form_header "vary" "accept" true)])).
  split; [reflexivity |].
  refine (proj1 (add_header_keeps_wf (Some cache_headers) "vary" "accept" true _ _ eq_refl)).
  repeat split; [repeat constructor; reflexivity].
Defined.

(** Two calls in a row put their headers behind the supplied ones in the
    order of the calls. *)
Theorem add_header_twice :
  forall (h : option ArrayType) (nm1 val1 nm2 val2 : string) (app1 app2 : bool)
         (a1 a2 : ArrayType),
    wf_headers h ->
    add_header h nm1 val1 app1 = Return a1 ->
    add_header (Some a1) nm2 val2 app2 = Return a2 ->
    elems a2 =
      (header_elems h ++
       [Some (heap_form_header nm1 val1 app1); Some (heap_form_header nm2 val2 app2)])%list /\
    lbound a2 = lbound a1.
Proof.
  intros h nm1 val1 nm2 val2 app1 app2 a1 a2 Hwf H1 H2.
  assert (Hwf1 : wf_array a1).
  { destruct h as [a |].
    - destruct (add_header_Return a a1 nm1 val1 app1 Hwf H1)
        as [dim [lb [Ed [Hlb [_ [_ Heq]]]]]].
      destruct (wf_array_1d a dim Hwf Ed) as [Hpos [Hlen _]].
      subst a1. unfold wf_array. cbn [dims lbound elems ArrayGetNItems fold_right List.length].
      split; [reflexivity |]. split; [repeat constructor; lia |].
      rewrite length_app. cbn [List.length]. lia.
    - cbn [add_header] in H1. injection H1 as H1. subst a1.
      unfold wf_array. cbn. split; [reflexivity |].
      split; [repeat constructor | reflexivity]. }
  assert (He1 : elems a1 = (header_elems h ++ [Some (heap_form_header nm1 val1 app1)])%list).
  { destruct h as [a |].
    - destruct (add_header_Return a a1 nm1 val1 app1 Hwf H1)
        as [dim [lb [_ [_ [_ [_ Heq]]]]]]. subst a1. reflexivity.
    - cbn [add_header] in H1. injection H1 as H1. subst a1. reflexivity. }
  destruct (add_header_Return a1 a2 nm2 val2 app2 Hwf1 H2)
    as [dim [lb [Ed [Hlb [_ [_ Heq]]]]]].
  subst a2. cbn [elems lbound]. rewrite He1, <- app_assoc. split; [reflexivity |].
  symmetry. exact Hlb.
Qed.

Lemma add_header_twice_witness :
  exists a1 a2,
    add_header None "a" "1" false = Return a1 /\
    add_header (Some a1) "b" "2" true = Return a2 /\
    elems a2 = [Some (heap_form_header "a" "1" false); Some (heap_form_header "b" "2" true)].
Proof.
  eexists. eexists. split; [reflexivity |]. split; [reflexivity |].
  exact (proj1 (add_header_twice None "a" "1" "b" "2" false true _ _ I eq_refl eq_refl)).
Defined.

(** ** [http_response]: status, body, and what inference leaves behind *)

(** When [add_header] does not return, neither does the call that needed
    it. *)
Lemma http_response_add_header_fails (s : option Z) (h : option ArrayType)
    (oid : Oid) (d : Datum) (val : string) :
  inferred_content_type oid = Some val ->
  datum_has_type oid d = true ->
  has_content_type h = false ->
  (forall msg, add_header h "content-type" val false = Raise msg ->
               http_response s h oid (Some d) = Raise msg) /\
  (add_header h "content-type" val false = Undefined ->
   http_response s h oid (Some d) = Undefined).
Proof.
  unfold http_response, inferred_content_type, datum_has_type.
  intros Hval Hty Hct. rewrite Hct.
  destruct ((oid =? TEXTOID) || (oid =? VARCHAROID) || (oid =? CHAROID)) eqn:Etxt;
    [| destruct (oid =? BYTEAOID) eqn:Ebytea;
       [| destruct (oid =? JSONBOID) eqn:Ejsonb;
          [| destruct (oid =? JSONOID) eqn:Ejson; [| discriminate]]]];
    cbn [orb] in Hval; injection Hval as Hval; subst val;
    try (destruct d as [z | bytes | jb]; try discriminate; cbn [DatumGetJsonbP bind]);
    split; intros; match goal with H : add_header _ _ _ _ = _ |- _ => rewrite H end;
    reflexivity.
Qed.

(** The status of the returned record is the status argument, or 200 when
    that is NULL; and with a NULL body the call returns the headers as
    given and a NULL body for any body type, supported or not: nothing is
    inferred and no type is rejected. *)
Theorem http_response_status_and_null_body :
  forall (s : option Z) (h : option ArrayType) (oid : Oid),
    http_response s h oid None =
    Return (mk_http_response (match s with None => 200 | Some z => z end) h None) /\
    (forall d r, http_response s h oid (Some d) = Return r ->
                 status r = match s with None => 200 | Some z => z end).
Proof.
  intros s h oid. split; [reflexivity |].
  intros d r Hr.
  destruct (http_response_Return s h oid d r Hr) as [val [_ [Hs _]]]. exact Hs.
Qed.

(** Only a jsonb body is rewritten: for every other body type the body of
    the returned record is the argument datum itself. *)
Theorem http_response_body_untouched :
  forall (s : option Z) (h : option ArrayType) (oid : Oid) (d : Datum)
         (r : http_response_tuple),
    oid <> JSONBOID ->
    http_response s h oid (Some d) = Return r ->
    body r = Some d.
Proof.
  intros s h oid d r Hoid Hr.
  destruct (http_response_Return s h oid d r Hr) as [val [_ [_ [_ [_ [_ Hb]]]]]].
  apply Hb. apply Z.eqb_neq. exact Hoid.
Qed.

Lemma http_response_body_untouched_witness :
  exists r,
    http_response (Some 404) None BYTEAOID (Some (Varlena "gone")) = Return r /\
    body r = Some (Varlena "gone").
Proof.
  eexists. split; [reflexivity |].
  apply (http_response_body_untouched (Some 404) None BYTEAOID (Varlena "gone")).
  - discriminate.
  - reflexivity.
Defined.

Lemma existsb_false_filter {A : Type} (f : A -> bool) (l : list A) :
  existsb f l = false -> filter f l = [].
Proof.
  induction l as [| x l IH]; [reflexivity |]. cbn [existsb filter].
  intros H. apply orb_false_iff in H. destruct H as [Hx Hl].
  rewrite Hx. apply IH. exact Hl.
Qed.

Lemma scan_false_no_content_type (items : list (option http_header)) :
  scan_content_type items = false -> existsb is_content_type_header items = false.
Proof.
  intros H. destruct (existsb is_content_type_header items) eqn:E; [| reflexivity].
  rewrite (scan_finds_content_type items E) in H. discriminate.
Qed.

(** What a returning call that inferred has in its headers. *)
Lemma http_response_inferred_elems (s : option Z) (h : option ArrayType) (oid : Oid)
    (d : Datum) (r : http_response_tuple) :
  wf_headers h ->
  has_content_type h = false ->
  http_response s h oid (Some d) = Return r ->
  exists val,
    inferred_content_type oid = Some val /\
    header_elems (headers r) =
    (header_elems h ++ [Some (heap_form_header "content-type" val false)])%list.
Proof.
  intros Hwf Hct Hr.
  destruct (http_response_Return s h oid d r Hr) as [val [Hval [_ [_ [Hadd _]]]]].
  destruct (Hadd Hct) as [a' [Ha' Hh]]. exists val. split; [exact Hval |].
  rewrite Hh. cbn [header_elems]. destruct h as [a |].
  - destruct (add_header_Return a a' _ _ _ Hwf Ha') as [dim [lb [_ [_ [_ [_ Heq]]]]]].
    subst a'. reflexivity.
  - cbn [add_header] in Ha'. injection Ha' as Ha'. subst a'. reflexivity.
Qed.

(** Whenever the call infers a content type, the returned headers hold
    exactly one header named [content-type] (up to case): the inferred one,
    since a scan that found nothing rules out any other. *)
Theorem http_response_inferred_is_only_content_type :
  forall (s : option Z) (h : option ArrayType) (oid : Oid) (d : Datum)
         (r : http_response_tuple),
    wf_headers h ->
    has_content_type h = false ->
    http_response s h oid (Some d) = Return r ->
    count_content_type (header_elems (headers r)) = 1%nat.
Proof.
  intros s h oid d r Hwf Hct Hr.
  destruct (http_response_inferred_elems s h oid d r Hwf Hct Hr) as [val [_ He]].
  rewrite He. unfold count_content_type. rewrite filter_app, length_app.
  assert (Hnone : existsb is_content_type_header (header_elems h) = false).
  { destruct h as [a |]; [| reflexivity]. apply scan_false_no_content_type. exact Hct. }
  rewrite (existsb_false_filter _ _ Hnone). reflexivity.
Qed.

Lemma http_response_inferred_is_only_content_type_witness :
  exists r,
    http_response None (Some cache_headers) TEXTOID (Some (Varlena "hello")) = Return r /\
    count_content_type (header_elems (headers r)) = 1%nat.
Proof.
  eexists. split; [reflexivity |].
  apply (http_response_inferred_is_only_content_type None (Some cache_headers) TEXTOID
           (Varlena "hello")).
  - repeat split; [repeat constructor; reflexivity].
  - reflexivity.
  - reflexivity.
Defined.

Lemma scan_content_type_app_inferred (items : list (option http_header)) (val : string) :
  scan_content_type
    (items ++ [Some (heap_form_header "content-type" val false)]) = true.
Proof.
  induction items as [| [tuple |] rest IH]; cbn [List.app scan_content_type].
  - reflexivity.
  - destruct (name tuple) as [n |]; [| exact IH].
    destruct (strncasecmp n "content-type" (String.length n) =? 0);
      [reflexivity | exact IH].
  - exact IH.
Qed.

(** The headers a call returns are a fixed point: handed to a second call,
    with any status and any body, they come back as they are, since the
    scan now finds the content type. *)
Theorem http_response_headers_stable :
  forall (s s' : option Z) (h : option ArrayType) (oid oid' : Oid) (d d' : Datum)
         (r : http_response_tuple),
    wf_headers h ->
    http_response s h oid (Some d) = Return r ->
    (forall r', http_response s' (headers r) oid' (Some d') = Return r' ->
                headers r' = headers r) /\
    (inferred_content_type oid' <> None -> datum_has_type oid' d' = true ->
     exists r', http_response s' (headers r) oid' (Some d') = Return r').
Proof.
  intros s s' h oid oid' d d' r Hwf Hr.
  assert (Hct' : has_content_type (headers r) = true).
  { destruct (has_content_type h) eqn:Hct.
    - destruct (http_response_Return s h oid d r Hr) as [val [_ [_ [Hkeep _]]]].
      rewrite (Hkeep Hct). exact Hct.
    - destruct (http_response_inferred_elems s h oid d r Hwf Hct Hr) as [val [_ He]].
      destruct (http_response_Return s h oid d r Hr) as [val' [_ [_ [_ [Hadd _]]]]].
      destruct (Hadd Hct) as [a' [_ Hh]]. rewrite Hh in *.
      cbn [has_content_type header_elems] in *. rewrite He.
      apply scan_content_type_app_inferred. }
  split.
  - intros r' Hr'.
    destruct (http_response_Return s' (headers r) oid' d' r' Hr')
      as [val [_ [_ [Hkeep _]]]].
    apply Hkeep. exact Hct'.
  - intros Hsup Hty. apply http_response_returns; auto.
Qed.

Lemma http_response_headers_stable_witness :
  exists r r',
    http_response None None TEXTOID (Some (Varlena "hello")) = Return r /\
    http_response (Some 500) (headers r) BYTEAOID (Some (Varlena "oops")) = Return r' /\
    headers r' = headers r.
Proof.
  destruct (http_response_headers_stable None (Some 500) None TEXTOID BYTEAOID
              (Varlena "hello") (Varlena "oops") _ I eq_refl) as [Hsame Hret].
  destruct Hret as [r' Hr']; [discriminate | reflexivity |].
  eexists. exists r'. split; [reflexivity |]. split; [exact Hr' | exact (Hsame r' Hr')].
Defined.

(** ** [http_response]: arrays that cannot take the inferred header *)

(** When a content type has to be inferred and the supplied array's lower
    bound and first dimension add up outside int32, the call ends with
    [integer out of range]: the guard of [add_header] is what the caller
    sees. *)
Theorem http_response_integer_out_of_range :
  forall (s : option Z) (a : ArrayType) (oid : Oid) (d : Datum)
         (lb dim : Z) (lbs ds : list Z),
    lbound a = lb :: lbs -> dims a = dim :: ds ->
    ~ in_int32 (lb + dim) ->
    has_content_type (Some a) = false ->
    inferred_content_type oid <> None -> datum_has_type oid d = true ->
    http_response s (Some a) oid (Some d) = Raise "integer out of range".
Proof.
  intros s a oid d lb dim lbs ds Hlb Hd Hr Hct Hsup Hty.
  destruct (inferred_content_type oid) as [val |] eqn:Hval; [| congruence].
  apply (http_response_add_header_fails s (Some a) oid d val Hval Hty Hct).
  unfold add_header.
  rewrite (add_header_indx_out_of_range a lb dim lbs ds Hlb Hd Hr). reflexivity.
Qed.

Lemma http_response_integer_out_of_range_witness :
  http_response None
    (Some (mk_ArrayType [1] [2147483647] [Some (heap_form_header "x-a" "1" false)]))
    TEXTOID (Some (Varlena "hello")) = Raise "integer out of range".
Proof.
  apply (http_response_integer_out_of_range None _ TEXTOID (Varlena "hello")
           2147483647 1 [] []); try reflexivity; try discriminate.
  unfold in_int32, PG_INT32_MAX. lia.
Defined.

(** An array of two or more dimensions never takes the inferred header:
    once the guard has let the subscript through, the store refuses it with
    [wrong number of array subscripts]. *)
Theorem http_response_multidimensional_headers :
  forall (s : option Z) (a : ArrayType) (oid : Oid) (d : Datum)
         (lb d1 d2 : Z) (lbs ds : list Z),
    lbound a = lb :: lbs -> dims a = d1 :: d2 :: ds ->
    in_int32 (lb + d1) ->
    has_content_type (Some a) = false ->
    inferred_content_type oid <> None -> datum_has_type oid d = true ->
    http_response s (Some a) oid (Some d) = Raise "wrong number of array subscripts".
Proof.
  intros s a oid d lb d1 d2 lbs ds Hlb Hd Hr Hct Hsup Hty.
  destruct (inferred_content_type oid) as [val |] eqn:Hval; [| congruence].
  apply (http_response_add_header_fails s (Some a) oid d val Hval Hty Hct).
  unfold add_header.
  rewrite (add_header_indx_in_range a lb d1 lbs (d2 :: ds) Hlb Hd Hr). cbn [bind].
  unfold array_set_element. rewrite Hd. destruct (lbound a); reflexivity.
Qed.

Lemma http_response_multidimensional_headers_witness :
  http_response None
    (Some (mk_ArrayType [1; 2] [1; 1]
             [Some (heap_form_header "x-a" "1" false);
              Some (heap_form_header "x-b" "2" false)]))
    JSONOID (Some (Varlena "[]")) = Raise "wrong number of array subscripts".
Proof.
  apply (http_response_multidimensional_headers None _ JSONOID (Varlena "[]")
           1 1 2 [1] []); try reflexivity; try discriminate.
  unfold in_int32, PG_INT32_MIN, PG_INT32_MAX. lia.
Defined.

(** The empty array is not NULL: with a body of a supported type nothing is
    found by the scan, and [add_header] goes on to read [lb[0]] and
    [dimv[0]] of an array that has no dimensions.  The call has no defined
    outcome. *)
Theorem http_response_empty_headers_array :
  forall (s : option Z) (a : ArrayType) (oid : Oid) (d : Datum),
    wf_array a -> dims a = [] ->
    inferred_content_type oid <> None -> datum_has_type oid d = true ->
    http_response s (Some a) oid (Some d) = Undefined.
Proof.
  intros s a oid d Hwf Hd Hsup Hty.
  destruct Hwf as [Hlen [_ Hn]]. rewrite Hd in Hlen, Hn.
  cbn [ArrayGetNItems] in Hn.
  assert (He : elems a = []) by (destruct (elems a); [reflexivity | discriminate]).
  assert (Hlb : lbound a = []) by (destruct (lbound a); [reflexivity | discriminate]).
  assert (Hct : has_content_type (Some a) = false)
    by (cbn [has_content_type]; rewrite He; reflexivity).
  destruct (inferred_content_type oid) as [val |] eqn:Hval; [| congruence].
  apply (http_response_add_header_fails s (Some a) oid d val Hval Hty Hct).
  unfold add_header, add_header_indx. rewrite Hlb. reflexivity.
Qed.

Lemma http_response_empty_headers_array_witness :
  http_response None (Some (mk_ArrayType [] [] [])) TEXTOID (Some (Varlena "hello")) =
  Undefined.
Proof.
  apply http_response_empty_headers_array; try reflexivity; try discriminate.
  repeat split. constructor.
Defined.

(** ** [handlers_query_validity_trigger]: which row, which error *)

Section HandlerValidatorFurther.

Variable RawStmt : Type.
Variable omni_sql_parse_statement : string -> string + list RawStmt.
Variable omni_sql_add_cte :
  list RawStmt -> string -> list RawStmt -> bool -> bool -> string + list RawStmt.
Variable omni_sql_is_valid : list RawStmt -> bool * string.

(** The validator looks at [tg_trigtuple] alone: its outcome is the same
    whatever [tg_newtuple] holds.  For an UPDATE, where [tg_trigtuple] is
    the row before the change, the query of the new row is not what is
    checked. *)
Theorem handlers_query_validity_trigger_ignores_new_row :
  forall (row : HeapTuple) (new new' : option HeapTuple),
    handlers_query_validity_trigger RawStmt omni_sql_parse_statement omni_sql_add_cte
      omni_sql_is_valid (AsTrigger (mk_TriggerData row new)) =
    handlers_query_validity_trigger RawStmt omni_sql_parse_statement omni_sql_add_cte
      omni_sql_is_valid (AsTrigger (mk_TriggerData row new')).
Proof.
  intros row new new'. reflexivity.
Qed.

(** A row with fewer than two columns reads as one with a NULL query. *)
Theorem handlers_query_validity_trigger_short_row :
  forall (row : HeapTuple) (new : option HeapTuple),
    (List.length row < 2)%nat ->
    handlers_query_validity_trigger RawStmt omni_sql_parse_statement omni_sql_add_cte
      omni_sql_is_valid (AsTrigger (mk_TriggerData row new)) =
    Raise "query can't be null".
Proof.
  intros row new Hlen.
  destruct row as [| c1 [| c2 row]]; [reflexivity | reflexivity |].
  cbn [List.length] in Hlen. lia.
Qed.

(** The error a rejected text ends with, in the order the checks run: the
    parser's own error when the text does not parse; [query can only
    contain one statement] when it parses to none or to several, before the
    CTE is built or resolution is asked; and [invalid query] when the one
    statement does not resolve. *)
Theorem handlers_query_validity_trigger_errors :
  forall (id_column : option Datum) (sql : string) (rest : HeapTuple)
         (new : option HeapTuple),
    let called :=
      handlers_query_validity_trigger RawStmt omni_sql_parse_statement
        omni_sql_add_cte omni_sql_is_valid
        (AsTrigger (mk_TriggerData (id_column :: Some (Varlena sql) :: rest) new)) in
    (forall e, omni_sql_parse_statement sql = inl e -> called = Raise e) /\
    (forall stmts, omni_sql_parse_statement sql = inr stmts ->
                   List.length stmts <> 1%nat ->
                   called = Raise "query can only contain one statement") /\
    (forall stmt request_cte stmts' err,
        omni_sql_parse_statement sql = inr [stmt] ->
        omni_sql_parse_statement request_cte_sql = inr request_cte ->
        omni_sql_add_cte [stmt] "request" request_cte false true = inr stmts' ->
        omni_sql_is_valid stmts' = (false, err) ->
        called = Raise "invalid query").
Proof.
  intros id_column sql rest new called. unfold called, handlers_query_validity_trigger.
  cbn [tg_trigtuple SPI_getbinval nth_error text_to_cstring bind].
  split; [| split].
  - intros e He. rewrite He. reflexivity.
  - intros stmts Hs Hlen. rewrite Hs. cbn [pg_call bind].
    destruct (Nat.eqb_spec (List.length stmts) 1) as [E | E]; [contradiction | reflexivity].
  - intros stmt cte stmts' err Hs Hc Ha Hv.
    rewrite Hs. cbn [pg_call bind List.length Nat.eqb negb].
    rewrite Hc. cbn [pg_call bind]. rewrite Ha. cbn [pg_call bind].
    rewrite Hv. reflexivity.
Qed.

End HandlerValidatorFurther.

Lemma handlers_query_validity_trigger_short_row_witness :
  handlers_query_validity_trigger unit (fun _ => inr [tt]) (fun s _ _ _ _ => inr s)
    (fun _ => (true, "")) (AsTrigger (mk_TriggerData [Some (ByVal 1)] None)) =
  Raise "query can't be null".
Proof.
  apply handlers_query_validity_trigger_short_row. cbn [List.length]. lia.
Defined.

Lemma handlers_query_validity_trigger_errors_witness :
  handlers_query_validity_trigger unit (fun _ => inr [tt; tt]) (fun s _ _ _ _ => inr s)
    (fun _ => (true, ""))
    (AsTrigger (mk_TriggerData [Some (ByVal 1); Some (Varlena "SELECT 1; SELECT 2;")] None)) =
  Raise "query can only contain one statement".
Proof.
  refine (proj1 (proj2 (handlers_query_validity_trigger_errors unit (fun _ => inr [tt; tt])
                          (fun s _ _ _ _ => inr s) (fun _ => (true, ""))
                          (Some (ByVal 1)) "SELECT 1; SELECT 2;" [] None))
            [tt; tt] eq_refl _).
  discriminate.
Defined.

(** ** [_Dynpgext_init]: the library name of the worker *)

Lemma length_strncpy (src : string) (n : nat) : List.length (strncpy src n) = n.
Proof.
  revert src. induction n as [| n IH]; intros src; [reflexivity |].
  cbn [strncpy]. destruct src as [| c rest]; [| destruct (Ascii.eqb c NUL)];
    cbn [List.length]; rewrite IH; reflexivity.
Qed.

Lemma cstring_of_strncpy_empty (n : nat) :
  cstring_of (strncpy EmptyString (S n)) = Some EmptyString.
Proof. reflexivity. Qed.

Lemma cstring_of_strncpy_short (src : string) :
  NUL_free src = true ->
  forall n, (String.length src < n)%nat -> cstring_of (strncpy src n) = Some src.
Proof.
  induction src as [| c rest IH]; intros Hfree n Hlen.
  - destruct n as [| n]; [lia | reflexivity].
  - cbn [NUL_free] in Hfree. apply andb_true_iff in Hfree. destruct Hfree as [Hc Hrest].
    apply negb_true_iff in Hc.
    destruct n as [| n]; [lia |]. cbn [String.length] in Hlen.
    cbn [strncpy]. rewrite Hc. cbn [cstring_of]. rewrite Hc.
    rewrite (IH Hrest n) by lia. reflexivity.
Qed.

Lemma cstring_of_strncpy_long (src : string) :
  NUL_free src = true ->
  forall n, (n <= String.length src)%nat -> cstring_of (strncpy src n) = None.
Proof.
  induction src as [| c rest IH]; intros Hfree n Hlen.
  - cbn [String.length] in Hlen. assert (n = O) by lia. subst n. reflexivity.
  - cbn [NUL_free] in Hfree. apply andb_true_iff in Hfree. destruct Hfree as [Hc Hrest].
    apply negb_true_iff in Hc.
    destruct n as [| n]; [reflexivity |]. cbn [String.length] in Hlen.
    cbn [strncpy]. rewrite Hc. cbn [cstring_of]. rewrite Hc.
    rewrite (IH Hrest n) by lia. reflexivity.
Qed.

(** The worker [_Dynpgext_init] registers carries the handle's library name
    whole when the name is shorter than [BGW_MAXLEN]; a name of
    [BGW_MAXLEN] bytes or more fills the [BGW_MAXLEN] bytes [strncpy] writes
    and leaves no NUL among them. *)
Theorem Dynpgext_init_library_name :
  forall (library_name : string),
    NUL_free library_name = true ->
    List.length (bgw_library_name (_Dynpgext_init_bgw library_name)) = BGW_MAXLEN /\
    ((String.length library_name < BGW_MAXLEN)%nat ->
     cstring_of (bgw_library_name (_Dynpgext_init_bgw library_name)) = Some library_name) /\
    ((BGW_MAXLEN <= String.length library_name)%nat ->
     cstring_of (bgw_library_name (_Dynpgext_init_bgw library_name)) = None).
Proof.
  intros library_name Hfree. cbn [_Dynpgext_init_bgw bgw_library_name].
  split; [apply length_strncpy |]. split.
  - apply cstring_of_strncpy_short. exact Hfree.
  - apply cstring_of_strncpy_long. exact Hfree.
Qed.

Lemma Dynpgext_init_library_name_witness :
  cstring_of (bgw_library_name (_Dynpgext_init_bgw "omni_httpd--0.1.so")) =
  Some "omni_httpd--0.1.so".
Proof.
  refine (proj1 (proj2 (Dynpgext_init_library_name "omni_httpd--0.1.so" eq_refl)) _).
  unfold BGW_MAXLEN. cbn [String.length]. lia.
Defined.
